(** * Pantalaimon: configuration loader and D-Bus control bridge

    A shallow embedding of [pantalaimon/config.py] and [pantalaimon/ui.py]
    together with the properties of the bridge specification that were
    checked against them.

    Conventions.
    - Python [str] values are [string]; [dict]s whose iteration order is
      observable are insertion-ordered association lists ([dict]).
    - Python's unbounded [int] is [Z].
    - A Python call that may raise returns [res]; the exception classes that
      occur in the two files are the constructors of [exn].
    - Objects that are shared by reference (the [IdCounter] and the two
      [queue.Queue]s) live in an explicit object store ([World]) and are
      named by locations. *)

From Stdlib Require Import ZArith String Ascii List Permutation Lia Bool.
From stdpp Require Import base option list gmap strings.
Import ListNotations.
Open Scope string_scope.
Open Scope Z_scope.
Open Scope list_scope.

(** ** Python values shared by both files *)

Module Py.

(** [str.lower()] on the ASCII range. *)
Definition lower_ascii (c : ascii) : ascii :=
  let n := nat_of_ascii c in
  if (Nat.leb 65 n && Nat.leb n 90)%bool then ascii_of_nat (n + 32) else c.

Fixpoint lower (s : string) : string :=
  match s with
  | EmptyString => EmptyString
  | String c s' => String (lower_ascii c) (lower s')
  end.

(** An insertion-ordered [dict] with [str] keys. *)
Definition dict (V : Type) : Type := list (string * V).

Fixpoint dict_get {V} (d : dict V) (k : string) : option V :=
  match d with
  | [] => None
  | (k', v) :: d' => if String.eqb k' k then Some v else dict_get d' k
  end.

(** [d[k] = v]: an existing key keeps its position, a new key goes last. *)
Fixpoint dict_set {V} (d : dict V) (k : string) (v : V) : dict V :=
  match d with
  | [] => [(k, v)]
  | (k', v') :: d' =>
      if String.eqb k' k then (k', v) :: d' else (k', v') :: dict_set d' k v
  end.

Definition dict_values {V} (d : dict V) : list V := map snd d.
Definition dict_keys {V} (d : dict V) : list string := map fst d.

(** Truthiness of an optional dict: [None] and [{}] are falsy. *)
Definition truthy_dict {V} (o : option (dict V)) : bool :=
  match o with
  | None => false
  | Some [] => false
  | Some (_ :: _) => true
  end.

End Py.

(** ** [pantalaimon/config.py] *)

Module Config.
Import Py.

(** The exception classes that [config.py] raises, catches or lets
    through. [PanConfigError] records which [raise] statement built it. *)
Inductive config_fault : Type :=
| ParserFault                              (* raise PanConfigError(e), e a configparser.Error *)
| HomeserverNotSet (section_name : string)
| ListenAlreadyDefined (section_name : string)
| ValueFault.                              (* raise PanConfigError(e), e a ValueError *)

(** The three subclasses of [configparser.InterpolationError] that
    [BasicInterpolation] raises when an option value is read. *)
Inductive interpolation_fault : Type :=
| BadSyntax                                (* InterpolationSyntaxError *)
| MissingOption                            (* InterpolationMissingOptionError *)
| DepthExceeded.                           (* InterpolationDepthError *)

Inductive exn : Type :=
| OSError
| ConfigparserError                        (* a configparser.Error of the file parser *)
| InterpolationError (why : interpolation_fault)
| ValueError
| PanConfigError (why : config_fault).

Inductive res (A : Type) : Type :=
| Ok (a : A)
| Raise (e : exn).
Arguments Ok {A} a.
Arguments Raise {A} e.

(** Sequencing: the first exception raised propagates. *)
#[global] Instance res_ret : MRet res := fun _ a => Ok a.
#[global] Instance res_bind : MBind res := fun _ _ k m =>
  match m with
  | Ok a => k a
  | Raise e => Raise e
  end.

(** [logbook]'s level constants. *)
Inductive LogLevel : Type :=
| CRITICAL | ERROR | WARNING | NOTICE | INFO | DEBUG | TRACE | NOTSET.

Definition parse_log_level (value : string) : LogLevel :=
  let value := lower value in
  if String.eqb value "info" then INFO
  else if String.eqb value "warning" then WARNING
  else if String.eqb value "error" then ERROR
  else if String.eqb value "debug" then DEBUG
  else WARNING.

(** [PanConfigParser.__init__]: the built-in defaults. The parser stores
    option names through [optionxform], i.e. lower-cased. *)
Definition parser_defaults : dict string :=
  [ ("ssl", "True");
    ("listenaddress", "localhost");
    ("listenport", "8009");
    ("loglevel", "warnig") ].

(** [ipaddress]' address objects: equal when of the same class and with
    the same integer value. *)
Inductive IPAddress : Type :=
| IPv4Address (ip : N)
| IPv6Address (ip : N).

#[global] Instance IPAddress_eq_dec : EqDecision IPAddress.
Proof. solve_decision. Defined.

#[global] Instance IPAddress_countable : Countable IPAddress.
Proof.
  refine (inj_countable'
            (fun a => match a with IPv4Address n => inl n | IPv6Address n => inr n end)
            (fun s => match s with inl n => IPv4Address n | inr n => IPv6Address n end) _).
  intros []; reflexivity.
Defined.

(** [urllib.parse.ParseResult]. *)
Record ParseResult : Type := {
  scheme : string;
  netloc : string;
  path : string;
  params : string;
  query : string;
  fragment : string
}.

(** The attributes hold whatever the section getters returned; a getter
    returns [None] for an option that is set nowhere. *)
Record ServerConfig : Type := {
  homeserver : ParseResult;
  listen_address : option IPAddress;
  listen_port : option Z;
  proxy : option ParseResult;
  ssl : option bool
}.

(** What [ConfigParser.read] leaves in the parser: the options of the
    [[Default]] section of the file and the other sections, in file order,
    everything keyed by lower-cased option name. The values are the texts
    as written in the file, before interpolation. *)
Record ParsedConfig : Type := {
  default_options : dict string;
  sections : list (string * dict string)
}.

Record PanConfig : Type := {
  config_file : string;
  log_level : option LogLevel;
  servers : dict ServerConfig
}.

(** The chain of mappings a section reads its options from: the section,
    then the file's default section, then the constructor's defaults.
    [key] is an option name after [optionxform]; [None] is a [KeyError]. *)
Definition section_lookup (config : ParsedConfig) (section : dict string)
    (key : string) : option string :=
  match dict_get section key with
  | Some v => Some v
  | None =>
      match dict_get (default_options config) key with
      | Some v => Some v
      | None => dict_get parser_defaults key
      end
  end.

(** ["%" in v] *)
Fixpoint has_percent (v : string) : bool :=
  match v with
  | EmptyString => false
  | String c v' => if Ascii.eqb c "%" then true else has_percent v'
  end.

(** [BasicInterpolation._interpolate_some], read left to right. The scan
    is in plain text, just after a "%", inside the name of "%(name", or
    after the ")" that closes the name, where the pattern %\(([^)]+)\)s
    asks for an "s". *)
Inductive scan_state : Type :=
| Plain
| Percent
| Key (name : string)
| KeyClosed (name : string).

Definition bad_syntax {A} : res A := Raise (InterpolationError BadSyntax).

(** One pass over a value. [nested] interpolates, one level deeper, the
    value of a referenced option that itself holds a "%". *)
Fixpoint scan (nested : string -> res string) (map : string -> option string)
    (state : scan_state) (rest : string) : res string :=
  match rest with
  | EmptyString =>
      match state with
      | Plain => Ok EmptyString
      | _ => bad_syntax
      end
  | String c rest' =>
      match state with
      | Plain =>
          if Ascii.eqb c "%" then scan nested map Percent rest'
          else r ← scan nested map Plain rest'; Ok (String c r)
      | Percent =>
          if Ascii.eqb c "%" then
            r ← scan nested map Plain rest'; Ok (String "%" r)
          else if Ascii.eqb c "(" then scan nested map (Key EmptyString) rest'
          else bad_syntax
      | Key name =>
          if Ascii.eqb c ")" then
            match name with
            | EmptyString => bad_syntax
            | _ => scan nested map (KeyClosed name) rest'
            end
          else scan nested map (Key (String.append name (String c EmptyString))) rest'
      | KeyClosed name =>
          if Ascii.eqb c "s" then
            match map (lower name) with
            | None => Raise (InterpolationError MissingOption)
            | Some v =>
                expanded ← (if has_percent v then nested v else Ok v);
                r ← scan nested map Plain rest';
                Ok (String.append expanded r)
            end
          else bad_syntax
      end
  end.

(** [depth_left] counts the levels still allowed below
    [MAX_INTERPOLATION_DEPTH]. *)
Fixpoint interpolate_some (depth_left : nat) (map : string -> option string)
    (rest : string) : res string :=
  match depth_left with
  | O => Raise (InterpolationError DepthExceeded)
  | S deeper => scan (interpolate_some deeper map) map Plain rest
  end.

Definition MAX_INTERPOLATION_DEPTH : nat := 10.

(** [BasicInterpolation.before_get] for an option of [section]. *)
Definition before_get (config : ParsedConfig) (section : dict string)
    (value : string) : res string :=
  interpolate_some MAX_INTERPOLATION_DEPTH (section_lookup config section) value.

(** [SectionProxy.get(option)]: the fallback [None] when the option is set
    nowhere, otherwise its value after interpolation, which may raise. *)
Definition section_get (config : ParsedConfig) (section : dict string)
    (name : string) : res (option string) :=
  match section_lookup config section (lower name) with
  | None => Ok None
  | Some value => value ← before_get config section value; Ok (Some value)
  end.

(** [RawConfigParser._convert_to_boolean]. *)
Definition convert_to_boolean (value : string) : res bool :=
  let v := lower value in
  if (String.eqb v "1" || String.eqb v "yes" || String.eqb v "true"
      || String.eqb v "on")%bool then Ok true
  else if (String.eqb v "0" || String.eqb v "no" || String.eqb v "false"
           || String.eqb v "off")%bool then Ok false
  else Raise ValueError.

(** A converter getter of a section proxy: the fallback [None] when the
    option is absent; otherwise the interpolation's exception, or the
    converter's result or exception. *)
Definition get_conv {A} (conv : string -> res A) (config : ParsedConfig)
    (section : dict string) (name : string) : res (option A) :=
  value ← section_get config section name;
  match value with
  | None => Ok None
  | Some v => a ← conv v; Ok (Some a)
  end.

(** No option value of the file holds a "%". *)
Definition percent_free (config : ParsedConfig) : Prop :=
  Forall (fun kv => has_percent (snd kv) = false) (default_options config)
  /\ Forall (fun item =>
               Forall (fun kv => has_percent (snd kv) = false) (snd item))
       (sections config).

Section Converters.
(** The standard-library parsers the converters delegate to. Each one
    either returns a value or raises [ValueError] ([None]). *)
Variable ip_address : string -> option IPAddress.
Variable urlparse : string -> option ParseResult.
Variable url_port : ParseResult -> option (option Z).
Variable py_int : string -> option Z.

Definition lift_value_error {A} (o : option A) : res A :=
  match o with
  | Some a => Ok a
  | None => Raise ValueError
  end.

Definition parse_address (value : string) : res IPAddress :=
  if String.eqb value "localhost" then lift_value_error (ip_address "127.0.0.1")
  else lift_value_error (ip_address value).

Definition parse_url (value : string) : res ParseResult :=
  value ← lift_value_error (urlparse value);
  if negb (String.eqb (scheme value) "http" || String.eqb (scheme value) "https")
  then Raise ValueError
  else
    _ ← lift_value_error (url_port value);
    Ok value.

Definition geturl := get_conv parse_url.
Definition getaddress := get_conv parse_address.
Definition getloglevel := get_conv (fun v => Ok (parse_log_level v)).
Definition getint := get_conv (fun v => lift_value_error (py_int v)).
Definition getboolean := get_conv convert_to_boolean.

(** The state of the [for] loop of [read]: the local [listen_set] and
    [self.servers]. *)
Record loop_state : Type := {
  listen_set : gset (option IPAddress * option Z);
  loop_servers : dict ServerConfig
}.

(** One iteration of the loop body of [PanConfig.read]. The listen
    tuple holds what the two getters returned, [None] included. *)
Definition read_section (config : ParsedConfig) (st : loop_state)
    (section_name : string) (section : dict string) : res loop_state :=
  if String.eqb section_name "Default" then Ok st
  else
    homeserver ← geturl config section "Homeserver";
    match homeserver with
    | None => Raise (PanConfigError (HomeserverNotSet section_name))
    | Some homeserver =>
        listen_address ← getaddress config section "ListenAddress";
        listen_port ← getint config section "ListenPort";
        ssl ← getboolean config section "SSL";
        proxy ← geturl config section "Proxy";
        let listen_tuple := (listen_address, listen_port) in
        if bool_decide (listen_tuple ∈ listen_set st)
        then Raise (PanConfigError (ListenAlreadyDefined section_name))
        else
          let server_conf :=
            {| homeserver := homeserver;
               listen_address := listen_address;
               listen_port := listen_port;
               proxy := proxy;
               ssl := ssl |} in
          Ok {| listen_set := {[ listen_tuple ]} ∪ listen_set st;
                loop_servers := dict_set (loop_servers st) section_name server_conf |}
    end.

(** The [for] loop over [config.items()]. [self.servers] is updated in
    place, so the entries stored before an exception stay. *)
Fixpoint read_sections (config : ParsedConfig) (st : loop_state)
    (items : list (string * dict string)) : loop_state * option exn :=
  match items with
  | [] => (st, None)
  | (section_name, section) :: rest =>
      match read_section config st section_name section with
      | Ok st' => read_sections config st' rest
      | Raise e => (st, Some e)
      end
  end.

(** [config.items()]: the default section first, then the others. *)
Definition config_items (config : ParsedConfig) : list (string * dict string) :=
  ("Default", default_options config) :: sections config.

(** [PanConfig.read]. [parsed] is the outcome of
    [config.read(os.path.abspath(self.config_file))]; the first [try]
    catches every [configparser.Error]. The [getloglevel] call stands
    outside both [try] blocks, and the [except] of the loop catches
    [ValueError] only. *)
Definition read (self : PanConfig) (parsed : res ParsedConfig)
    : PanConfig * res unit :=
  match parsed with
  | Raise ConfigparserError | Raise (InterpolationError _) =>
      (self, Raise (PanConfigError ParserFault))
  | Raise e => (self, Raise e)
  | Ok config =>
      let new_level :=
        match log_level self with
        | None => getloglevel config [] "LogLevel"
        | Some l => Ok (Some l)
        end in
      match new_level with
      | Raise e => (self, Raise e)
      | Ok new_level =>
          let '(st, raised) :=
            read_sections config
              {| listen_set := ∅; loop_servers := servers self |}
              (config_items config) in
          let self' :=
            {| config_file := config_file self;
               log_level := new_level;
               servers := loop_servers st |} in
          match raised with
          | None => (self', Ok tt)
          | Some ValueError => (self', Raise (PanConfigError ValueFault))
          | Some e => (self', Raise e)
          end
      end
  end.

(** The listen tuple the loop body computes for a section, when both
    getters return. *)
Definition listen_tuple_of (config : ParsedConfig) (section : dict string)
    : option (option IPAddress * option Z) :=
  match getaddress config section "ListenAddress",
        getint config section "ListenPort" with
  | Ok listen_address, Ok listen_port => Some (listen_address, listen_port)
  | _, _ => None
  end.

(** The listen tuple of an item of [config.items()] that the loop does
    not skip. *)
Definition section_tuple (config : ParsedConfig)
    (item : string * dict string) : option (option IPAddress * option Z) :=
  if String.eqb (fst item) "Default" then None
  else listen_tuple_of config (snd item).
End Converters.

End Config.

(** ** [pantalaimon/ui.py] *)

Module Ui.
Import Py.

(** The classes of [pantalaimon.thread_messages] that [ui.py] builds or
    tests with [isinstance], with the attributes it passes or reads. *)
Inductive Message : Type :=
| ExportKeysMessage (message_id : Z) (pan_user filepath passphrase : string)
| ImportKeysMessage (message_id : Z) (pan_user filepath passphrase : string)
| DeviceVerifyMessage (message_id : Z) (pan_user user_id device_id : string)
| DeviceUnverifyMessage (message_id : Z) (pan_user user_id device_id : string)
| StartSasMessage (message_id : Z) (pan_user user_id device_id : string)
| CancelSasMessage (message_id : Z) (pan_user user_id device_id : string)
| ConfirmSasMessage (message_id : Z) (pan_user user_id device_id : string)
| AcceptSasMessage (message_id : Z) (pan_user user_id device_id : string)
| UpdateDevicesMessage
| UpdateUsersMessage
| InviteSasSignal (pan_user user_id device_id transaction_id : string)
| ShowSasSignal (pan_user user_id device_id transaction_id : string)
                (emoji : list (string * string))
| SasDoneSignal (pan_user user_id device_id transaction_id : string)
| DaemonResponse (message_id : Z) (pan_user code message : string)
(** Modelled from the spec: the verification-cancelled event of the data
    model (identity, user id, device id, transaction id, reason text,
    machine-readable code); [ui.py] imports no class for it. *)
| SasCancelledEvent (pan_user user_id device_id transaction_id : string)
                    (reason code : string)
(** Any other object found on a queue. *)
| OtherObject (class_name : string) (attributes : dict string).

(** [message.message_id]; [None] is an [AttributeError]. *)
Definition get_message_id (m : Message) : option Z :=
  match m with
  | ExportKeysMessage i _ _ _ | ImportKeysMessage i _ _ _
  | DeviceVerifyMessage i _ _ _ | DeviceUnverifyMessage i _ _ _
  | StartSasMessage i _ _ _ | CancelSasMessage i _ _ _
  | ConfirmSasMessage i _ _ _ | AcceptSasMessage i _ _ _
  | DaemonResponse i _ _ _ => Some i
  | _ => None
  end.

(** The signals of the two published interfaces, with their arguments. *)
Inductive Signal : Type :=
| Response (id : Z) (pan_user : string) (message : dict string)
| VerificationInvite (pan_user user_id device_id transaction_id : string)
| VerificationString (pan_user user_id device_id transaction_id : string)
                     (emoji : list (string * string))
| VerificationCancel (pan_user user_id device_id transaction_id : string)
                     (reason code : string)
| VerificationDone (pan_user user_id device_id transaction_id : string).

(** A device record ([a{ss}]) and the nested mapping
    pan user -> user id -> device id -> device. *)
Definition Device : Type := dict string.
Definition DeviceStore : Type := dict (dict Device).
Definition DeviceCache : Type := dict DeviceStore.

(** [queue.Queue]: the pending items, oldest first, and the count of
    items put but not yet marked done. *)
Record Queue : Type := {
  items : list Message;
  unfinished_tasks : nat
}.

Definition loc : Type := positive.

(** The process state outside the bridge objects themselves: the objects
    shared by reference, the database behind the store, and what the
    bridge has sent out so far. *)
Record World : Type := {
  counters : gmap loc Z;          (* IdCounter objects: their _message_id *)
  queues : gmap loc Queue;
  db_users : list (string * string);
  db_devices : DeviceCache;
  bus_signals : list Signal;      (* emitted signals, oldest first *)
  debug_log : list Message        (* arguments of logger.debug *)
}.

Definition set_counters (f : gmap loc Z -> gmap loc Z) (w : World) : World :=
  {| counters := f (counters w); queues := queues w; db_users := db_users w;
     db_devices := db_devices w; bus_signals := bus_signals w;
     debug_log := debug_log w |}.
Definition set_queues (f : gmap loc Queue -> gmap loc Queue) (w : World) : World :=
  {| counters := counters w; queues := f (queues w); db_users := db_users w;
     db_devices := db_devices w; bus_signals := bus_signals w;
     debug_log := debug_log w |}.
Definition set_bus_signals (f : list Signal -> list Signal) (w : World) : World :=
  {| counters := counters w; queues := queues w; db_users := db_users w;
     db_devices := db_devices w; bus_signals := f (bus_signals w);
     debug_log := debug_log w |}.
Definition set_debug_log (f : list Message -> list Message) (w : World) : World :=
  {| counters := counters w; queues := queues w; db_users := db_users w;
     db_devices := db_devices w; bus_signals := bus_signals w;
     debug_log := f (debug_log w) |}.

(** Stateful code: a state transformer that may stop with an uncaught
    exception ([None]). *)
Definition ST (S A : Type) : Type := S -> option (A * S).

#[global] Instance ST_ret {S} : MRet (ST S) := fun _ a s => Some (a, s).
#[global] Instance ST_bind {S} : MBind (ST S) := fun _ _ k m s =>
  match m s with
  | Some (a, s') => k a s'
  | None => None
  end.

Definition modify {S} (f : S -> S) : ST S unit := fun s => Some (tt, f s).
Definition raise {S A} : ST S A := fun _ => None.

(** Run a computation on the world from a method that also carries its
    object. *)
Definition on_world {O A} (m : ST World A) : ST (O * World) A := fun s =>
  match m (snd s) with
  | Some (a, w') => Some (a, (fst s, w'))
  | None => None
  end.

Definition on_self {O} (f : O -> O) : ST (O * World) unit :=
  modify (fun s => (f (fst s), snd s)).

Definition self_of {O} : ST (O * World) O := fun s => Some (fst s, s).

(** *** [IdCounter] *)
Module IdCounter.
(** [IdCounter()]: a new object whose [_message_id] is 0. *)
Definition __init__ : ST World loc := fun w =>
  let l := fresh (dom (counters w)) in
  Some (l, set_counters (insert l 0) w).

(** The [message_id] property: return the current value, then add one. *)
Definition message_id (self : loc) : ST World Z := fun w =>
  match counters w !! self with
  | Some ret => Some (ret, set_counters (insert self (ret + 1)) w)
  | None => None
  end.
End IdCounter.

(** *** [queue.Queue] as used by the bridge *)
Module PyQueue.
Definition __init__ : ST World loc := fun w =>
  let l := fresh (dom (queues w)) in
  Some (l, set_queues (insert l {| items := []; unfinished_tasks := 0 |}) w).

Definition put (self : loc) (m : Message) : ST World unit := fun w =>
  match queues w !! self with
  | Some q =>
      Some (tt, set_queues (insert self
              {| items := (items q ++ [m])%list;
                 unfinished_tasks := S (unfinished_tasks q) |}) w)
  | None => None
  end.

(** [get_nowait]: [None] in the result stands for [queue.Empty]. *)
Definition get_nowait (self : loc) : ST World (option Message) := fun w =>
  match queues w !! self with
  | Some q =>
      match items q with
      | [] => Some (None, w)
      | m :: rest =>
          Some (Some m, set_queues (insert self
                  {| items := rest; unfinished_tasks := unfinished_tasks q |}) w)
      end
  | None => None
  end.

(** [task_done]: raises [ValueError] when called more often than there
    were items. *)
Definition task_done (self : loc) : ST World unit := fun w =>
  match queues w !! self with
  | Some q =>
      match unfinished_tasks q with
      | O => None
      | S n =>
          Some (tt, set_queues (insert self
                  {| items := items q; unfinished_tasks := n |}) w)
      end
  | None => None
  end.
End PyQueue.

(** *** [PanStore] *)
Module PanStore.
(** Modelled from the spec: [pantalaimon/store.py] is not among the
    sources. The store is a synchronous, authoritative reader of the
    database: [load_all_users] returns the set of managed identities and
    [load_all_devices] a device cache snapshot. *)
Record t : Type := { data_dir : string }.

Definition __init__ (data_dir : string) : t := {| data_dir := data_dir |}.

(** Modelled from the spec: [load_all_identities], the managed identities
    as the database has them now. *)
Definition load_all_users (self : t) : ST World (list (string * string)) :=
  fun w => Some (db_users w, w).

(** Modelled from the spec: [load_all_devices], a snapshot of the devices
    as the database has them now. *)
Definition load_all_devices (self : t) : ST World DeviceCache :=
  fun w => Some (db_devices w, w).
End PanStore.

(** Calling a signal object: the signal goes out on the bus. *)
Definition emit (s : Signal) : ST World unit :=
  modify (set_bus_signals (fun l => (l ++ [s])%list)).

Definition logger_debug (m : Message) : ST World unit :=
  modify (set_debug_log (fun l => (l ++ [m])%list)).

(** [return message.message_id] *)
Definition return_message_id {S} (message : Message) : ST S Z :=
  match get_message_id message with
  | Some i => mret i
  | None => raise
  end.

(** *** [Control] *)
Module Control.
Record t : Type := {
  users : list (string * string);
  queue : loc;
  id_counter : loc
}.

Definition __init__ (queue : loc) (user_list : list (string * string))
    (id_counter : loc) : t :=
  {| users := user_list; queue := queue; id_counter := id_counter |}.

Definition message_id (self : t) : ST World Z :=
  IdCounter.message_id (id_counter self).

Definition ListUsers (self : t) : list (string * string) := users self.

Definition ExportKeys (self : t) (pan_user filepath passphrase : string)
    : ST World Z :=
  i ← message_id self;
  let message := ExportKeysMessage i pan_user filepath passphrase in
  _ ← PyQueue.put (queue self) message;
  return_message_id message.

Definition ImportKeys (self : t) (pan_user filepath passphrase : string)
    : ST World Z :=
  i ← message_id self;
  let message := ImportKeysMessage i pan_user filepath passphrase in
  _ ← PyQueue.put (queue self) message;
  return_message_id message.
End Control.

(** *** [Devices] *)
Module Devices.
Record t : Type := {
  store : PanStore.t;
  device_list : option DeviceCache;   (* None until update_devices *)
  queue : loc;
  id_counter : loc
}.

Definition set_device_list (d : option DeviceCache) (self : t) : t :=
  {| store := store self; device_list := d; queue := queue self;
     id_counter := id_counter self |}.

Definition update_devices : ST (t * World) unit :=
  self ← self_of;
  snapshot ← on_world (PanStore.load_all_devices (store self));
  on_self (set_device_list (Some snapshot)).

Definition __init__ (queue : loc) (store : PanStore.t) (id_counter : loc)
    : ST World t := fun w =>
  let self := {| store := store; device_list := None; queue := queue;
                 id_counter := id_counter |} in
  match update_devices (self, w) with
  | Some (_, (self', w')) => Some (self', w')
  | None => None
  end.

Definition message_id (self : t) : ST World Z :=
  IdCounter.message_id (id_counter self).

(** [List]; the result [None] is the [AttributeError] of calling [.get]
    on a [device_list] that is still [None]. *)
Definition List (self : t) (pan_user : string) : option (list Device) :=
  match device_list self with
  | None => None
  | Some cache =>
      let device_store := dict_get cache pan_user in
      if negb (truthy_dict device_store) then Some []
      else
        match device_store with
        | Some device_store =>
            Some (flat_map (fun device_list => dict_values device_list)
                    (dict_values device_store))
        | None => Some []
        end
  end.

Definition ListUserDevices (self : t) (pan_user user_id : string)
    : option (list Device) :=
  match device_list self with
  | None => None
  | Some cache =>
      let device_store := dict_get cache pan_user in
      if negb (truthy_dict device_store) then Some []
      else
        match device_store with
        | Some device_store =>
            let device_list := dict_get device_store user_id in
            if negb (truthy_dict device_list) then Some []
            else
              match device_list with
              | Some device_list => Some (dict_values device_list)
              | None => Some []
              end
        | None => Some []
        end
  end.

(** The six command methods differ only in the message class. *)
Definition send (mk : Z -> string -> string -> string -> Message)
    (pan_user user_id device_id : string) : ST (t * World) Z :=
  self ← self_of;
  i ← on_world (message_id self);
  let message := mk i pan_user user_id device_id in
  _ ← on_world (PyQueue.put (queue self) message);
  return_message_id message.

Definition Verify := send DeviceVerifyMessage.
Definition UnVerify := send DeviceUnverifyMessage.
Definition StartKeyVerification := send StartSasMessage.
Definition CancelKeyVerification := send CancelSasMessage.
Definition ConfirmKeyVerification := send ConfirmSasMessage.
Definition AcceptKeyVerification := send AcceptSasMessage.
End Devices.

(** *** [GlibT] *)
Module GlibT.
(** The GLib main loop and the session bus handle play no part in the
    methods below and are left out of the record. *)
Record t : Type := {
  receive_queue : loc;
  send_queue : loc;
  data_dir : string;
  store : PanStore.t;
  users : list (string * string);
  control_if : Control.t;
  device_if : Devices.t
}.

Definition set_device_if (d : Devices.t) (self : t) : t :=
  {| receive_queue := receive_queue self; send_queue := send_queue self;
     data_dir := data_dir self; store := store self; users := users self;
     control_if := control_if self; device_if := d |}.

(** Call a method of [self.device_if]. *)
Definition with_device_if {A} (m : ST (Devices.t * World) A)
    : ST (t * World) A := fun s =>
  match m (device_if (fst s), snd s) with
  | Some (a, (d', w')) => Some (a, (set_device_if d' (fst s), w'))
  | None => None
  end.

Definition __attrs_post_init__ (receive_queue send_queue : loc)
    (data_dir : string) : ST World t :=
  let store := PanStore.__init__ data_dir in
  users ← PanStore.load_all_users store;
  id_counter ← IdCounter.__init__;
  let control_if := Control.__init__ send_queue users id_counter in
  device_if ← Devices.__init__ send_queue store id_counter;
  mret {| receive_queue := receive_queue; send_queue := send_queue;
          data_dir := data_dir; store := store; users := users;
          control_if := control_if; device_if := device_if |}.

(** The [if isinstance ... elif ...] chain of [message_callback], on the
    messages of [Message]: events built as their classes declare them,
    every attribute set and of the type the signal asks for, with a store
    that reloads and a bus that takes the signal. On these the chain raises
    nothing. [Raw.dispatch] below is the chain on any object the queue may
    hold, with what it raises. *)
Definition dispatch (message : Message) : ST (t * World) unit :=
  match message with
  | UpdateDevicesMessage => with_device_if Devices.update_devices
  | InviteSasSignal pan_user user_id device_id transaction_id =>
      on_world (emit (VerificationInvite pan_user user_id device_id
                        transaction_id))
  | ShowSasSignal pan_user user_id device_id transaction_id emoji =>
      on_world (emit (VerificationString pan_user user_id device_id
                        transaction_id emoji))
  | SasDoneSignal pan_user user_id device_id transaction_id =>
      on_world (emit (VerificationDone pan_user user_id device_id
                        transaction_id))
  | DaemonResponse message_id pan_user code message =>
      on_world (emit (Response message_id pan_user
                        [("code", code); ("message", message)]))
  | _ => mret tt
  end.

Definition message_callback : ST (t * World) bool :=
  self ← self_of;
  message ← on_world (PyQueue.get_nowait (receive_queue self));
  match message with
  | None => mret true
  | Some message =>
      _ ← on_world (logger_debug message);
      _ ← dispatch message;
      _ ← on_world (PyQueue.task_done (receive_queue self));
      mret true
  end.
End GlibT.

(** *** The bridge as driven from outside *)

(** A call of one of the command-issuing methods of the two published
    objects. *)
Inductive Call : Type :=
| CallExportKeys (pan_user filepath passphrase : string)
| CallImportKeys (pan_user filepath passphrase : string)
| CallVerify (pan_user user_id device_id : string)
| CallUnVerify (pan_user user_id device_id : string)
| CallStartKeyVerification (pan_user user_id device_id : string)
| CallCancelKeyVerification (pan_user user_id device_id : string)
| CallAcceptKeyVerification (pan_user user_id device_id : string)
| CallConfirmKeyVerification (pan_user user_id device_id : string).

Definition invoke (c : Call) : ST (GlibT.t * World) Z :=
  match c with
  | CallExportKeys a b d =>
      self ← self_of; on_world (Control.ExportKeys (GlibT.control_if self) a b d)
  | CallImportKeys a b d =>
      self ← self_of; on_world (Control.ImportKeys (GlibT.control_if self) a b d)
  | CallVerify a b d => GlibT.with_device_if (Devices.Verify a b d)
  | CallUnVerify a b d => GlibT.with_device_if (Devices.UnVerify a b d)
  | CallStartKeyVerification a b d =>
      GlibT.with_device_if (Devices.StartKeyVerification a b d)
  | CallCancelKeyVerification a b d =>
      GlibT.with_device_if (Devices.CancelKeyVerification a b d)
  | CallAcceptKeyVerification a b d =>
      GlibT.with_device_if (Devices.AcceptKeyVerification a b d)
  | CallConfirmKeyVerification a b d =>
      GlibT.with_device_if (Devices.ConfirmKeyVerification a b d)
  end.

(** What happens to the bridge, one event at a time: a client calls a
    method, or the host loop runs the periodic callback. The step yields
    the correlation id a call returned. *)
Inductive Step : Type :=
| Invoke (c : Call)
| Tick.

Definition step (st : Step) : ST (GlibT.t * World) (option Z) :=
  match st with
  | Invoke c => i ← invoke c; mret (Some i)
  | Tick => _ ← GlibT.message_callback; mret None
  end.

(** Run the steps in order and collect the ids returned, in issuance
    order. *)
Fixpoint run (steps : list Step) : ST (GlibT.t * World) (list Z) :=
  match steps with
  | [] => mret []
  | st :: rest =>
      r ← step st;
      ids ← run rest;
      mret (match r with Some i => i :: ids | None => ids end)
  end.

(** [n] consecutive runs of the periodic callback; the results are the
    values it returned. *)
Fixpoint ticks (n : nat) : ST (GlibT.t * World) (list bool) :=
  match n with
  | O => mret []
  | S n' =>
      b ← GlibT.message_callback;
      bs ← ticks n';
      mret (b :: bs)
  end.

(** The notification the interface declares for an event: the signal of
    the matching kind with the event's own fields. *)
Definition notification_of (m : Message) : option Signal :=
  match m with
  | InviteSasSignal a b c d => Some (VerificationInvite a b c d)
  | ShowSasSignal a b c d e => Some (VerificationString a b c d e)
  | SasCancelledEvent a b c d r k => Some (VerificationCancel a b c d r k)
  | SasDoneSignal a b c d => Some (VerificationDone a b c d)
  | DaemonResponse i a c m => Some (Response i a [("code", c); ("message", m)])
  | _ => None
  end.

(** A process state in which the bridge can run: both surfaces hold the
    same, existing counter and the same, existing command queue; the event
    queue exists and its bookkeeping covers its pending items. *)
Record bridge_ok (g : GlibT.t) (w : World) : Prop := {
  ok_counter_shared :
    Control.id_counter (GlibT.control_if g) = Devices.id_counter (GlibT.device_if g);
  ok_counter : is_Some (counters w !! Devices.id_counter (GlibT.device_if g));
  ok_control_queue : Control.queue (GlibT.control_if g) = GlibT.send_queue g;
  ok_devices_queue : Devices.queue (GlibT.device_if g) = GlibT.send_queue g;
  ok_send_queue : is_Some (queues w !! GlibT.send_queue g);
  ok_receive_queue :
    exists q, queues w !! GlibT.receive_queue g = Some q
              /\ (length (items q) <= unfinished_tasks q)%nat;
  ok_device_list : is_Some (Devices.device_list (GlibT.device_if g))
}.

(** Start-up: the caller creates the two queues and constructs [GlibT]. *)
Definition boot (data_dir : string) : ST World GlibT.t :=
  receive_queue ← PyQueue.__init__;
  send_queue ← PyQueue.__init__;
  GlibT.__attrs_post_init__ receive_queue send_queue data_dir.

Definition empty_world (users : list (string * string)) (devices : DeviceCache)
    : World :=
  {| counters := ∅; queues := ∅; db_users := users; db_devices := devices;
     bus_signals := []; debug_log := [] |}.

(** The number of method calls among the steps. *)
Fixpoint count_invokes (steps : list Step) : nat :=
  match steps with
  | [] => O
  | Invoke _ :: rest => S (count_invokes rest)
  | Tick :: rest => count_invokes rest
  end.

(** *** Effects of the methods, in closed form *)

(** The state a command method leaves: the counter advanced by one and the
    message at the tail of the queue. *)
Definition after_command (c l : loc) (n : Z) (q : Queue) (m : Message)
    (w : World) : World :=
  set_queues (insert l {| items := (items q ++ [m])%list;
                          unfinished_tasks := S (unfinished_tasks q) |})
    (set_counters (insert c (n + 1)) w).

(** The signal [GlibT.dispatch] emits for a message, if any. *)
Definition emitted_by (m : Message) : option Signal :=
  match m with
  | InviteSasSignal a b c d => Some (VerificationInvite a b c d)
  | ShowSasSignal a b c d e => Some (VerificationString a b c d e)
  | SasDoneSignal a b c d => Some (VerificationDone a b c d)
  | DaemonResponse i a c m => Some (Response i a [("code", c); ("message", m)])
  | _ => None
  end.

(** The bridge object after [GlibT.dispatch]: only a device-list-changed
    message touches it, by replacing the cache with the store's snapshot. *)
Definition refreshed (m : Message) (g : GlibT.t) (w : World) : GlibT.t :=
  match m with
  | UpdateDevicesMessage =>
      GlibT.set_device_if
        (Devices.set_device_list (Some (db_devices w)) (GlibT.device_if g)) g
  | _ => g
  end.

(** The world after a run of [message_callback] that found [m] at the head
    of the event queue [l], with [rest] behind it and [k] other unfinished
    tasks. *)
Definition after_tick (l : loc) (m : Message) (rest : list Message) (k : nat)
    (w : World) : World :=
  {| counters := counters w;
     queues := <[l := {| items := rest; unfinished_tasks := k |}]> (queues w);
     db_users := db_users w;
     db_devices := db_devices w;
     bus_signals := (bus_signals w ++ option_list (emitted_by m))%list;
     debug_log := (debug_log w ++ [m])%list |}.

(** The message a call puts on the command queue when the counter hands
    out [i]. *)
Definition command_of (c : Call) (i : Z) : Message :=
  match c with
  | CallExportKeys a b d => ExportKeysMessage i a b d
  | CallImportKeys a b d => ImportKeysMessage i a b d
  | CallVerify a b d => DeviceVerifyMessage i a b d
  | CallUnVerify a b d => DeviceUnverifyMessage i a b d
  | CallStartKeyVerification a b d => StartSasMessage i a b d
  | CallCancelKeyVerification a b d => CancelSasMessage i a b d
  | CallAcceptKeyVerification a b d => AcceptSasMessage i a b d
  | CallConfirmKeyVerification a b d => ConfirmSasMessage i a b d
  end.

(** The method calls among the steps, in order. *)
Fixpoint calls_of (steps : list Step) : list Call :=
  match steps with
  | [] => []
  | Invoke c :: rest => c :: calls_of rest
  | Tick :: rest => calls_of rest
  end.

(** The devices [List] and [ListUserDevices] read out of a cache. *)
Definition devices_of (cache : DeviceCache) (pan_user : string) : list Device :=
  match dict_get cache pan_user with
  | Some device_store => concat (map dict_values (dict_values device_store))
  | None => []
  end.

Definition user_devices_of (cache : DeviceCache) (pan_user user_id : string)
    : list Device :=
  match dict_get cache pan_user with
  | Some device_store =>
      match dict_get device_store user_id with
      | Some device_list => dict_values device_list
      | None => []
      end
  | None => []
  end.

(** *** [message_callback] on whatever the queue holds

    The classes of [thread_messages] are not among the sources, and
    [ui.py] checks nothing about an event before dispatching it: the
    queue accepts any object. Here a queue item is an object of some class
    with whatever attributes it has, the store can fail to reload, and an
    exception that nothing catches is kept together with the state it
    leaves behind. *)
Module Raw.

(** The attribute values the signals distinguish. *)
Inductive value : Type :=
| PyNone
| PyStr (s : string)
| PyInt (n : Z)
| PyPairs (l : list (string * string)).   (* a list of 2-tuples of str *)

(** The first [isinstance] test of [message_callback] an object passes. *)
Inductive class : Type :=
| IsUpdateDevicesMessage
| IsInviteSasSignal
| IsShowSasSignal
| IsSasDoneSignal
| IsDaemonResponse
| NoneOfThese (class_name : string).

Record object : Type := {
  class_of : class;
  attributes : dict value
}.

Inductive exn : Type :=
| AttributeError (name : string)   (* the attribute is not set *)
| TypeError                        (* an argument does not fit its D-Bus type *)
| OverflowError                    (* an int outside the range of 'i' *)
| StoreError                       (* the store could not be read *)
| ValueError.                      (* task_done() called too many times *)

Inductive outcome (A : Type) : Type :=
| Returned (a : A)
| Raised (e : exn).
Arguments Returned {A} a.
Arguments Raised {A} e.

(** What [message_callback] touches: the event queue with its count of
    unfinished tasks, the device cache of [device_if], the database behind
    the store ([None]: it cannot be read), the signals sent and the debug
    log. *)
Record state : Type := {
  pending : list object;
  unfinished : nat;
  cache : option DeviceCache;
  database : option DeviceCache;
  emitted : list Signal;
  logged : list object
}.

Definition M (A : Type) : Type := state -> outcome A * state.

#[global] Instance M_ret : MRet M := fun _ a s => (Returned a, s).
#[global] Instance M_bind : MBind M := fun _ _ k m s =>
  match m s with
  | (Returned a, s') => k a s'
  | (Raised e, s') => (Raised e, s')
  end.

Definition throw {A} (e : exn) : M A := fun s => (Raised e, s).

(** [message.name] *)
Definition getattr (message : object) (name : string) : M value :=
  match dict_get (attributes message) name with
  | Some v => mret v
  | None => throw (AttributeError name)
  end.

(** A signal call packs its arguments by the types the interface XML
    declares for the signal: 's', 'i' (32 bits, signed) and 'a(ss)'. *)
Definition pack_s (v : value) : M string :=
  match v with
  | PyStr s => mret s
  | _ => throw TypeError
  end.

Definition pack_i (v : value) : M Z :=
  match v with
  | PyInt n =>
      if ((-2147483648 <=? n) && (n <=? 2147483647))%bool then mret n
      else throw OverflowError
  | _ => throw TypeError
  end.

Definition pack_ass (v : value) : M (list (string * string)) :=
  match v with
  | PyPairs l => mret l
  | _ => throw TypeError
  end.

Definition emit (sig : Signal) : M unit := fun s =>
  (Returned tt,
   {| pending := pending s; unfinished := unfinished s; cache := cache s;
      database := database s; emitted := (emitted s ++ [sig])%list;
      logged := logged s |}).

Definition VerificationInvite (pan_user user_id device_id transaction_id : value)
    : M unit :=
  a ← pack_s pan_user; b ← pack_s user_id; c ← pack_s device_id;
  d ← pack_s transaction_id;
  emit (Ui.VerificationInvite a b c d).

Definition VerificationString
    (pan_user user_id device_id transaction_id emoji : value) : M unit :=
  a ← pack_s pan_user; b ← pack_s user_id; c ← pack_s device_id;
  d ← pack_s transaction_id; e ← pack_ass emoji;
  emit (Ui.VerificationString a b c d e).

Definition VerificationDone (pan_user user_id device_id transaction_id : value)
    : M unit :=
  a ← pack_s pan_user; b ← pack_s user_id; c ← pack_s device_id;
  d ← pack_s transaction_id;
  emit (Ui.VerificationDone a b c d).

(** [Response(id, pan_user, {"code": code, "message": message})], the
    last argument of type 'a{ss}'. *)
Definition Response (id pan_user code message : value) : M unit :=
  i ← pack_i id; a ← pack_s pan_user; c ← pack_s code; m ← pack_s message;
  emit (Ui.Response i a [("code", c); ("message", m)]).

(** Modelled from the spec: [PanStore.load_all_devices] is not among the
    sources; it returns a snapshot of the database. [Devices.update_devices]
    stores the snapshot, and raises what the store raises when the database
    cannot be read ([database s = None]). *)
Definition update_devices : M unit := fun s =>
  match database s with
  | Some snapshot =>
      (Returned tt,
       {| pending := pending s; unfinished := unfinished s;
          cache := Some snapshot; database := database s;
          emitted := emitted s; logged := logged s |})
  | None => (Raised StoreError, s)
  end.

(** The [if isinstance ... elif ...] chain of [message_callback]: the
    arguments of a call are evaluated left to right, then the call is
    made. *)
Definition dispatch (message : object) : M unit :=
  match class_of message with
  | IsUpdateDevicesMessage => update_devices
  | IsInviteSasSignal =>
      pan_user ← getattr message "pan_user";
      user_id ← getattr message "user_id";
      device_id ← getattr message "device_id";
      transaction_id ← getattr message "transaction_id";
      VerificationInvite pan_user user_id device_id transaction_id
  | IsShowSasSignal =>
      pan_user ← getattr message "pan_user";
      user_id ← getattr message "user_id";
      device_id ← getattr message "device_id";
      transaction_id ← getattr message "transaction_id";
      emoji ← getattr message "emoji";
      VerificationString pan_user user_id device_id transaction_id emoji
  | IsSasDoneSignal =>
      pan_user ← getattr message "pan_user";
      user_id ← getattr message "user_id";
      device_id ← getattr message "device_id";
      transaction_id ← getattr message "transaction_id";
      VerificationDone pan_user user_id device_id transaction_id
  | IsDaemonResponse =>
      message_id ← getattr message "message_id";
      pan_user ← getattr message "pan_user";
      code ← getattr message "code";
      text ← getattr message "message";
      Response message_id pan_user code text
  | NoneOfThese _ => mret tt
  end.

(** [receive_queue.get_nowait()]; [None] stands for [queue.Empty]. *)
Definition get_nowait : M (option object) := fun s =>
  match pending s with
  | [] => (Returned None, s)
  | message :: rest =>
      (Returned (Some message),
       {| pending := rest; unfinished := unfinished s; cache := cache s;
          database := database s; emitted := emitted s; logged := logged s |})
  end.

Definition task_done : M unit := fun s =>
  match unfinished s with
  | O => (Raised ValueError, s)
  | S n =>
      (Returned tt,
       {| pending := pending s; unfinished := n; cache := cache s;
          database := database s; emitted := emitted s; logged := logged s |})
  end.

Definition logger_debug (message : object) : M unit := fun s =>
  (Returned tt,
   {| pending := pending s; unfinished := unfinished s; cache := cache s;
      database := database s; emitted := emitted s;
      logged := (logged s ++ [message])%list |}).

(** [GlibT.message_callback]: no statement of it catches what the
    dispatch raises, so an exception there leaves the method before
    [task_done()] and [return True]. *)
Definition message_callback : M bool :=
  message ← get_nowait;
  match message with
  | None => mret true
  | Some message =>
      _ ← logger_debug message;
      _ ← dispatch message;
      _ ← task_done;
      mret true
  end.

(** [n] consecutive runs of the periodic callback, up to the first
    exception that leaves it. *)
Fixpoint ticks (n : nat) : M (list bool) :=
  match n with
  | O => mret []
  | S n' =>
      b ← message_callback;
      bs ← ticks n';
      mret (b :: bs)
  end.

(** An attribute that is set and holds a value of the given kind. *)
Definition holds (kind : value -> bool) (message : object) (name : string)
    : bool :=
  match dict_get (attributes message) name with
  | Some v => kind v
  | None => false
  end.

Definition is_str (v : value) : bool :=
  match v with PyStr _ => true | _ => false end.
Definition is_int32 (v : value) : bool :=
  match v with
  | PyInt n => ((-2147483648 <=? n) && (n <=? 2147483647))%bool
  | _ => false
  end.
Definition is_pairs (v : value) : bool :=
  match v with PyPairs _ => true | _ => false end.

(** The events whose dispatch raises nothing: those of none of the five
    classes; a device-list-changed event while the store can be read; and
    the events to relay that have every attribute the call reads, each of
    the type its signal declares. *)
Definition dispatchable (db : option DeviceCache) (message : object) : bool :=
  match class_of message with
  | NoneOfThese _ => true
  | IsUpdateDevicesMessage =>
      match db with Some _ => true | None => false end
  | IsInviteSasSignal | IsSasDoneSignal =>
      holds is_str message "pan_user" && holds is_str message "user_id"
      && holds is_str message "device_id"
      && holds is_str message "transaction_id"
  | IsShowSasSignal =>
      holds is_str message "pan_user" && holds is_str message "user_id"
      && holds is_str message "device_id"
      && holds is_str message "transaction_id"
      && holds is_pairs message "emoji"
  | IsDaemonResponse =>
      holds is_int32 message "message_id" && holds is_str message "pan_user"
      && holds is_str message "code" && holds is_str message "message"
  end.

(** The messages of [Message] as queue objects. The chain reads no
    attribute of the classes it does not test; theirs are left out. *)
Definition object_of (m : Message) : object :=
  match m with
  | UpdateDevicesMessage =>
      {| class_of := IsUpdateDevicesMessage; attributes := [] |}
  | InviteSasSignal a b c d =>
      {| class_of := IsInviteSasSignal;
         attributes := [("pan_user", PyStr a); ("user_id", PyStr b);
                        ("device_id", PyStr c); ("transaction_id", PyStr d)] |}
  | ShowSasSignal a b c d e =>
      {| class_of := IsShowSasSignal;
         attributes := [("pan_user", PyStr a); ("user_id", PyStr b);
                        ("device_id", PyStr c); ("transaction_id", PyStr d);
                        ("emoji", PyPairs e)] |}
  | SasDoneSignal a b c d =>
      {| class_of := IsSasDoneSignal;
         attributes := [("pan_user", PyStr a); ("user_id", PyStr b);
                        ("device_id", PyStr c); ("transaction_id", PyStr d)] |}
  | DaemonResponse i a c t =>
      {| class_of := IsDaemonResponse;
         attributes := [("message_id", PyInt i); ("pan_user", PyStr a);
                        ("code", PyStr c); ("message", PyStr t)] |}
  | ExportKeysMessage _ _ _ _ =>
      {| class_of := NoneOfThese "ExportKeysMessage"; attributes := [] |}
  | ImportKeysMessage _ _ _ _ =>
      {| class_of := NoneOfThese "ImportKeysMessage"; attributes := [] |}
  | DeviceVerifyMessage _ _ _ _ =>
      {| class_of := NoneOfThese "DeviceVerifyMessage"; attributes := [] |}
  | DeviceUnverifyMessage _ _ _ _ =>
      {| class_of := NoneOfThese "DeviceUnverifyMessage"; attributes := [] |}
  | StartSasMessage _ _ _ _ =>
      {| class_of := NoneOfThese "StartSasMessage"; attributes := [] |}
  | CancelSasMessage _ _ _ _ =>
      {| class_of := NoneOfThese "CancelSasMessage"; attributes := [] |}
  | ConfirmSasMessage _ _ _ _ =>
      {| class_of := NoneOfThese "ConfirmSasMessage"; attributes := [] |}
  | AcceptSasMessage _ _ _ _ =>
      {| class_of := NoneOfThese "AcceptSasMessage"; attributes := [] |}
  | UpdateUsersMessage =>
      {| class_of := NoneOfThese "UpdateUsersMessage"; attributes := [] |}
  | SasCancelledEvent _ _ _ _ _ _ =>
      {| class_of := NoneOfThese "SasCancelledEvent"; attributes := [] |}
  | OtherObject class_name attrs =>
      {| class_of := NoneOfThese class_name;
         attributes := map (fun kv => (fst kv, PyStr (snd kv))) attrs |}
  end.

(** A [DaemonResponse] whose id fits the 'i' of the [Response] signal;
    nothing is asked of the other messages. *)
Definition fits_signal (m : Message) : bool :=
  match m with
  | DaemonResponse i _ _ _ => is_int32 (PyInt i)
  | _ => true
  end.

(** The part of the bridge and the process state that [message_callback]
    touches, with the event queue [q]. *)
Definition state_of (g : GlibT.t) (w : World) (q : Queue) : state :=
  {| pending := map object_of (items q);
     unfinished := unfinished_tasks q;
     cache := Devices.device_list (GlibT.device_if g);
     database := Some (db_devices w);
     emitted := bus_signals w;
     logged := map object_of (debug_log w) |}.
End Raw.
End Ui.

(** ** Sample inputs

    Concrete stand-ins for the standard-library parsers, two configuration
    files and a device cache, used to run the definitions above. *)

Module Samples.
Import Py Config Ui.

Definition ip_address (s : string) : option IPAddress :=
  if String.eqb s "127.0.0.1" then Some (IPv4Address 2130706433)
  else if String.eqb s "192.168.1.2" then Some (IPv4Address 3232235778)
  else if String.eqb s "::1" then Some (IPv6Address 1)
  else None.

Definition urlparse (s : string) : option ParseResult :=
  if String.prefix "https://" s
  then Some {| scheme := "https"; netloc := String.substring 8 (String.length s - 8) s;
               path := ""; params := ""; query := ""; fragment := "" |}
  else Some {| scheme := ""; netloc := ""; path := s; params := "";
               query := ""; fragment := "" |}.

Definition url_port (u : ParseResult) : option (option Z) := Some None.

Fixpoint digits (s : string) (acc : Z) : option Z :=
  match s with
  | EmptyString => Some acc
  | String c s' =>
      let n := Z.of_nat (nat_of_ascii c) in
      if ((48 <=? n) && (n <=? 57))%bool then digits s' (10 * acc + (n - 48))
      else None
  end.

Definition py_int (s : string) : option Z :=
  match s with
  | EmptyString => None
  | _ => digits s 0
  end.

Definition read := Config.read ip_address urlparse url_port py_int.
Definition section_tuple := Config.section_tuple ip_address py_int.

Definition fresh_config : PanConfig :=
  {| config_file := "pantalaimon.conf"; log_level := None; servers := [] |}.

(** Two sections that listen on 127.0.0.1:8010, one through the default
    address "localhost". *)
Definition clashing : ParsedConfig :=
  {| default_options := [];
     sections :=
       [ ("alice", [("homeserver", "https://alice.example.org");
                    ("listenport", "8010")]);
         ("bob", [("homeserver", "https://bob.example.org");
                  ("listenaddress", "127.0.0.1");
                  ("listenport", "8010")]) ] |}.

Definition clashing_reordered : ParsedConfig :=
  {| default_options := [];
     sections :=
       [ ("bob", [("homeserver", "https://bob.example.org");
                  ("listenaddress", "127.0.0.1");
                  ("listenport", "8010")]);
         ("alice", [("homeserver", "https://alice.example.org");
                    ("listenport", "8010")]) ] |}.

Definition distinct : ParsedConfig :=
  {| default_options := [("loglevel", "Debug")];
     sections :=
       [ ("alice", [("homeserver", "https://alice.example.org")]);
         ("bob", [("homeserver", "https://bob.example.org");
                  ("listenport", "8010")]) ] |}.

Definition device1 : Device :=
  [("user_id", "bob"); ("device_id", "DEV1"); ("trust_state", "unverified")].

(** The cache of the listing scenario: alice sees one device of bob. *)
Definition cache : DeviceCache := [("alice", [("bob", [("DEV1", device1)])])].

Definition control : Control.t :=
  {| Control.users := [("alice", "ALICEDEV")]; Control.queue := 2%positive;
     Control.id_counter := 1%positive |}.

Definition devices : Devices.t :=
  {| Devices.store := PanStore.__init__ "/data"; Devices.device_list := Some cache;
     Devices.queue := 2%positive; Devices.id_counter := 1%positive |}.

Definition bridge : GlibT.t :=
  {| GlibT.receive_queue := 1%positive; GlibT.send_queue := 2%positive;
     GlibT.data_dir := "/data"; GlibT.store := PanStore.__init__ "/data";
     GlibT.users := [("alice", "ALICEDEV")];
     GlibT.control_if := control; GlibT.device_if := devices |}.

(** The process right after start-up, with [events] put on the event queue
    by the daemon. *)
Definition world (events : list Message) : World :=
  {| counters := {[ 1%positive := 0 ]};
     queues := {[ 1%positive := {| items := events;
                                   unfinished_tasks := length events |};
                  2%positive := {| items := []; unfinished_tasks := 0 |} ]};
     db_users := [("alice", "ALICEDEV")];
     db_devices := cache;
     bus_signals := [];
     debug_log := [] |}.

Definition cancelled : Message :=
  SasCancelledEvent "alice" "bob" "DEV1" "txn1" "User cancelled" "m.user".

(** A file whose second section names no homeserver. *)
Definition no_homeserver : ParsedConfig :=
  {| default_options := [];
     sections :=
       [ ("alice", [("homeserver", "https://alice.example.org")]);
         ("bob", [("listenport", "8010")]) ] |}.

(** Two sections that leave the listen options to the defaults. *)
Definition both_default : ParsedConfig :=
  {| default_options := [("listenport", "8008")];
     sections :=
       [ ("alice", [("homeserver", "https://alice.example.org")]);
         ("bob", [("homeserver", "https://bob.example.org")]) ] |}.

(** Two sections on 127.0.0.1:8010, the first with a "%" that starts no
    interpolation in its Homeserver. *)
Definition percent_clash : ParsedConfig :=
  {| default_options := [];
     sections :=
       [ ("alice", [("homeserver", "https://alice.example.org/%zz");
                    ("listenaddress", "127.0.0.1"); ("listenport", "8010")]);
         ("bob", [("homeserver", "https://bob.example.org");
                  ("listenaddress", "127.0.0.1"); ("listenport", "8010")]) ] |}.

(** A default ListenPort that refers to an option of the asking section. *)
Definition interpolated : ParsedConfig :=
  {| default_options := [("listenport", "80%(n)s")];
     sections :=
       [ ("alice", [("homeserver", "https://alice.example.org"); ("n", "09")]);
         ("bob", [("homeserver", "https://bob.example.org"); ("n", "10")]) ] |}.

(** The configuration object after reading [distinct]. *)
Definition loaded : PanConfig := fst (read fresh_config (Ok distinct)).

(** A second device cache, as the store has it after a change. *)
Definition device2 : Device :=
  [("user_id", "carol"); ("device_id", "DEV2"); ("trust_state", "verified")].

Definition cache2 : DeviceCache :=
  [("alice", [("bob", [("DEV1", device1)]); ("carol", [("DEV2", device2)])])].

Definition world2 (events : list Message) : World :=
  {| counters := {[ 1%positive := 5 ]};
     queues := {[ 1%positive := {| items := events;
                                   unfinished_tasks := length events |};
                  2%positive := {| items := []; unfinished_tasks := 0 |} ]};
     db_users := [("alice", "ALICEDEV"); ("dave", "DAVEDEV")];
     db_devices := cache2;
     bus_signals := [];
     debug_log := [] |}.

(** An [InviteSasSignal] built with no transaction id. *)
Definition invite_without_transaction : Raw.object :=
  {| Raw.class_of := Raw.IsInviteSasSignal;
     Raw.attributes := [("pan_user", Raw.PyStr "alice");
                        ("user_id", Raw.PyStr "bob");
                        ("device_id", Raw.PyStr "DEV1");
                        ("transaction_id", Raw.PyNone)] |}.

(** The state [message_callback] sees after start-up with [evs] put on
    the event queue. *)
Definition raw_state (evs : list Raw.object) : Raw.state :=
  {| Raw.pending := evs; Raw.unfinished := length evs;
     Raw.cache := Some cache; Raw.database := Some cache;
     Raw.emitted := []; Raw.logged := [] |}.
End Samples.

(** * Properties of [config.py] *)

Section LogLevelProperties.
Import Py Config.

Lemma lower_ascii_idemp c : lower_ascii (lower_ascii c) = lower_ascii c.
Proof.
  destruct c as [[] [] [] [] [] [] [] []]; reflexivity.
Qed.

Lemma lower_idemp s : lower (lower s) = lower s.
Proof.
  induction s as [|c s IH]; simpl; [reflexivity|].
  now rewrite lower_ascii_idemp, IH.
Qed.

(** The result depends on the lower-cased input only. *)
Lemma parse_log_level_lower value :
  parse_log_level (lower value) = parse_log_level value.
Proof. unfold parse_log_level. now rewrite lower_idemp. Qed.

(** C10. [parse_log_level] returns a level for every string, and the level
    is decided by the lower-cased input: INFO, WARNING, ERROR and DEBUG for
    the four names, WARNING for everything else, the parser's default
    "warnig" included. Two inputs that differ only in case get the same
    level. *)
Theorem parse_log_level_total_case_insensitive (value : string) :
  (lower value = "info" -> parse_log_level value = INFO)
  /\ (lower value = "warning" -> parse_log_level value = WARNING)
  /\ (lower value = "error" -> parse_log_level value = ERROR)
  /\ (lower value = "debug" -> parse_log_level value = DEBUG)
  /\ (lower value <> "info" -> lower value <> "warning" ->
      lower value <> "error" -> lower value <> "debug" ->
      parse_log_level value = WARNING)
  /\ (forall other, lower other = lower value ->
                    parse_log_level other = parse_log_level value)
  /\ dict_get parser_defaults "loglevel" = Some "warnig"
  /\ parse_log_level "warnig" = WARNING.
Proof.
  unfold parse_log_level.
  repeat split; try reflexivity.
  - intros ->. reflexivity.
  - intros ->. reflexivity.
  - intros ->. reflexivity.
  - intros ->. reflexivity.
  - intros Hi Hw He Hd.
    destruct (String.eqb_spec (lower value) "info"); [contradiction|].
    destruct (String.eqb_spec (lower value) "warning"); [contradiction|].
    destruct (String.eqb_spec (lower value) "error"); [contradiction|].
    destruct (String.eqb_spec (lower value) "debug"); [contradiction|].
    reflexivity.
  - intros other ->. reflexivity.
Qed.

Lemma parse_log_level_witness :
  parse_log_level "DeBuG" = DEBUG /\ parse_log_level "Warnig" = WARNING.
Proof.
  split.
  - apply (parse_log_level_total_case_insensitive "DeBuG"). reflexivity.
  - apply (parse_log_level_total_case_insensitive "Warnig");
      intros H; discriminate H.
Defined.
End LogLevelProperties.

Section ReadProperties.
Import Py Config.

Variable ip_address : string -> option IPAddress.
Variable urlparse : string -> option ParseResult.
Variable url_port : ParseResult -> option (option Z).
Variable py_int : string -> option Z.

Abbreviation read_section := (Config.read_section ip_address urlparse url_port py_int).
Abbreviation read_sections := (Config.read_sections ip_address urlparse url_port py_int).
Abbreviation read := (Config.read ip_address urlparse url_port py_int).
Abbreviation listen_tuple_of := (Config.listen_tuple_of ip_address py_int).
Abbreviation section_tuple := (Config.section_tuple ip_address py_int).
Abbreviation parse_url := (Config.parse_url urlparse url_port).
Abbreviation parse_address := (Config.parse_address ip_address).

Abbreviation interpolation_exn e := (exists f, e = InterpolationError f).
Abbreviation getter_exn e := (e = ValueError \/ exists f, e = InterpolationError f).

(** *** Interpolation *)

(** Interpolation raises nothing but [InterpolationError]. *)
Lemma scan_raises nested map :
  (forall v e, nested v = Raise e -> interpolation_exn e) ->
  forall rest state e,
    scan nested map state rest = Raise e -> interpolation_exn e.
Proof.
  intros Hnested. induction rest as [|c rest IH]; intros state e.
  - destruct state; simpl; unfold bad_syntax; intros [= <-]; eauto.
  - destruct state as [| |name|name]; simpl; unfold bad_syntax, mbind, res_bind.
    + destruct (Ascii.eqb c "%"); [apply IH|].
      destruct (scan nested map Plain rest) eqn:E; [discriminate|].
      intros [= <-]. eapply IH; eauto.
    + destruct (Ascii.eqb c "%").
      * destruct (scan nested map Plain rest) eqn:E; [discriminate|].
        intros [= <-]. eapply IH; eauto.
      * destruct (Ascii.eqb c "("); [apply IH|]. intros [= <-]; eauto.
    + destruct (Ascii.eqb c ")"); [|apply IH].
      destruct name; [intros [= <-]; eauto|apply IH].
    + destruct (Ascii.eqb c "s"); [|intros [= <-]; eauto].
      destruct (map (lower name)) as [v|]; [|intros [= <-]; eauto].
      destruct (has_percent v).
      * destruct (nested v) eqn:En; [|intros [= <-]; eapply Hnested; eauto].
        destruct (scan nested map Plain rest) eqn:E; [discriminate|].
        intros [= <-]. eapply IH; eauto.
      * destruct (scan nested map Plain rest) eqn:E; [discriminate|].
        intros [= <-]. eapply IH; eauto.
Qed.

Lemma interpolate_some_raises map : forall depth rest e,
  interpolate_some depth map rest = Raise e -> interpolation_exn e.
Proof.
  induction depth as [|depth IH]; intros rest e; simpl.
  - intros [= <-]; eauto.
  - apply scan_raises. exact IH.
Qed.

(** A value without "%" is its own interpolation. *)
Lemma scan_plain nested map : forall rest,
  has_percent rest = false -> scan nested map Plain rest = Ok rest.
Proof.
  induction rest as [|c rest IH]; simpl; [reflexivity|].
  destruct (Ascii.eqb c "%"); [discriminate|].
  intros H. unfold mbind, res_bind. now rewrite (IH H).
Qed.

Lemma before_get_plain config section v :
  has_percent v = false -> before_get config section v = Ok v.
Proof. intros H. unfold before_get. simpl. now apply scan_plain. Qed.

Lemma section_get_raises config section name e :
  section_get config section name = Raise e -> interpolation_exn e.
Proof.
  unfold section_get, mbind, res_bind.
  destruct (section_lookup config section (lower name)) as [v|]; [|discriminate].
  destruct (before_get config section v) eqn:E; [discriminate|].
  intros [= <-]. unfold before_get in E.
  eapply interpolate_some_raises; eauto.
Qed.

Lemma section_get_none config section name :
  section_get config section name = Ok None
  <-> section_lookup config section (lower name) = None.
Proof.
  unfold section_get, mbind, res_bind.
  destruct (section_lookup config section (lower name)) as [v|]; [|tauto].
  destruct (before_get config section v); split; discriminate.
Qed.

(** *** The getters *)

(** The four getters raise [ValueError] from their converter or an
    [InterpolationError] from reading the value, nothing else. *)
Lemma lift_value_error_raises {A} (o : option A) e :
  lift_value_error o = Raise e -> e = ValueError.
Proof. destruct o; simpl; congruence. Qed.

Lemma get_conv_raises {A} (conv : string -> res A) config section name e :
  (forall v e', conv v = Raise e' -> e' = ValueError) ->
  get_conv conv config section name = Raise e -> getter_exn e.
Proof.
  intros Hconv. unfold get_conv, mbind, res_bind.
  destruct (section_get config section name) as [[v|]|e0] eqn:E.
  - destruct (conv v) eqn:Ec; [discriminate|].
    intros [= <-]. left. eauto.
  - discriminate.
  - intros [= <-]. right. eapply section_get_raises; eauto.
Qed.

Lemma geturl_raises config section name e :
  geturl urlparse url_port config section name = Raise e -> getter_exn e.
Proof.
  apply get_conv_raises. intros v e'.
  unfold Config.parse_url, mbind, res_bind.
  destruct (urlparse v) as [u|]; simpl; [|congruence].
  destruct (negb _); [congruence|].
  destruct (url_port u); simpl; congruence.
Qed.

Lemma getaddress_raises config section name e :
  getaddress ip_address config section name = Raise e -> getter_exn e.
Proof.
  apply get_conv_raises. intros v e'. unfold Config.parse_address.
  destruct (String.eqb v "localhost"); apply lift_value_error_raises.
Qed.

Lemma getint_raises config section name e :
  getint py_int config section name = Raise e -> getter_exn e.
Proof.
  apply get_conv_raises. intros v e'. apply lift_value_error_raises.
Qed.

Lemma getboolean_raises config section name e :
  getboolean config section name = Raise e -> getter_exn e.
Proof.
  apply get_conv_raises. intros v e'. unfold convert_to_boolean.
  repeat destruct (_ || _)%bool; congruence.
Qed.

(** Case analysis on the getters of one loop iteration. *)
Ltac getter_cases H g lem :=
  let E := fresh "E" in
  destruct g as [?|?] eqn:E;
  [ | apply lem in E; destruct E as [->|[? ->]]; try discriminate H ].

Ltac step_getters H :=
  unfold Config.read_section, mbind, res_bind in H;
  repeat match type of H with
    | context [Config.geturl ?a ?b ?c ?d ?e] =>
        getter_cases H (Config.geturl a b c d e) geturl_raises
    | context [Config.getaddress ?a ?c ?d ?e] =>
        getter_cases H (Config.getaddress a c d e) getaddress_raises
    | context [Config.getint ?a ?c ?d ?e] =>
        getter_cases H (Config.getint a c d e) getint_raises
    | context [Config.getboolean ?c ?d ?e] =>
        getter_cases H (Config.getboolean c d e) getboolean_raises
    | context [match ?o with Some _ => _ | None => _ end] =>
        destruct o; try discriminate H
    | context [bool_decide ?P] =>
        destruct (bool_decide_reflect P); try discriminate H
    end.

Lemma read_section_default config st section :
  read_section config st "Default" section = Ok st.
Proof. reflexivity. Qed.

(** An iteration that completes has computed a listen tuple that was not
    in the set, and has added it. *)
Lemma read_section_ok config st name section st' :
  name <> "Default" ->
  read_section config st name section = Ok st' ->
  exists t, listen_tuple_of config section = Some t
            /\ (t ∉ listen_set st)
            /\ listen_set st' = {[ t ]} ∪ listen_set st.
Proof.
  intros Hname H. unfold Config.read_section in H.
  destruct (String.eqb_spec name "Default") as [|_]; [contradiction|].
  step_getters H.
  all: injection H as <-; unfold Config.listen_tuple_of.
  all: repeat match goal with E : _ = Ok _ |- _ => rewrite E; clear E end.
  all: eexists; repeat split; eauto.
Qed.


(** An iteration raises nothing but what a getter raises and
    [PanConfigError]. *)
Lemma read_section_raises config st name section e :
  read_section config st name section = Raise e ->
  getter_exn e \/ exists why, e = PanConfigError why.
Proof.
  intros H. unfold Config.read_section in H.
  destruct (String.eqb name "Default"); [discriminate H|].
  step_getters H.
  all: injection H as <-; eauto.
Qed.


Lemma read_section_ok_mono config st name section st' t :
  read_section config st name section = Ok st' ->
  t ∈ listen_set st -> t ∈ listen_set st'.
Proof.
  intros H Ht. destruct (String.eqb_spec name "Default") as [->|Hne].
  - rewrite read_section_default in H. now injection H as <-.
  - destruct (read_section_ok _ _ _ _ _ Hne H) as (t' & _ & _ & Hset).
    rewrite Hset. apply elem_of_union. now right.
Qed.

Lemma read_section_ok_fresh config st name section st' t :
  read_section config st name section = Ok st' ->
  section_tuple config (name, section) = Some t ->
  (t ∉ listen_set st) /\ t ∈ listen_set st'.
Proof.
  unfold Config.section_tuple. simpl. intros H Ht.
  destruct (String.eqb_spec name "Default") as [|Hne]; [discriminate|].
  destruct (read_section_ok _ _ _ _ _ Hne H) as (t' & Htup & Hnew & Hset).
  rewrite Htup in Ht. injection Ht as ->. rewrite Hset.
  split; [assumption|]. apply elem_of_union. left. now apply elem_of_singleton.
Qed.

(** A loop that runs to its end met no tuple that was in the set at the
    start. *)
Lemma read_sections_fresh config items : forall st st' item t,
  read_sections config st items = (st', None) ->
  item ∈ items -> section_tuple config item = Some t ->
  t ∉ listen_set st.
Proof.
  induction items as [|[name section] rest IH]; intros st st' item t Hrun Hin Ht.
  - inversion Hin.
  - simpl in Hrun.
    destruct (read_section config st name section) as [st1|e] eqn:E;
      [|discriminate].
    apply elem_of_cons in Hin as [->|Hin].
    + apply (read_section_ok_fresh _ _ _ _ _ _ E Ht).
    + intros Hold. apply (IH _ _ _ _ Hrun Hin Ht).
      eapply read_section_ok_mono; eauto.
Qed.

(** A loop that runs to its end met every listen tuple once. *)
Lemma read_sections_distinct config items : forall st st' i j x y t,
  read_sections config st items = (st', None) ->
  items !! i = Some x -> items !! j = Some y ->
  section_tuple config x = Some t -> section_tuple config y = Some t ->
  i = j.
Proof.
  induction items as [|[name section] rest IH];
    intros st st' i j x y t Hrun Hi Hj Hx Hy.
  - discriminate.
  - simpl in Hrun.
    destruct (read_section config st name section) as [st1|e] eqn:E;
      [|discriminate].
    destruct i as [|i], j as [|j]; simpl in Hi, Hj.
    + reflexivity.
    + injection Hi as <-. exfalso.
      apply (read_sections_fresh _ _ _ _ y t Hrun); [|assumption|].
      * eapply list_elem_of_lookup_2; eauto.
      * apply (read_section_ok_fresh _ _ _ _ _ _ E Hx).
    + injection Hj as <-. exfalso.
      apply (read_sections_fresh _ _ _ _ x t Hrun); [|assumption|].
      * eapply list_elem_of_lookup_2; eauto.
      * apply (read_section_ok_fresh _ _ _ _ _ _ E Hy).
    + f_equal. eapply IH; eauto.
Qed.


Lemma read_sections_raises config items : forall st st' e,
  read_sections config st items = (st', Some e) ->
  getter_exn e \/ exists why, e = PanConfigError why.
Proof.
  induction items as [|[name section] rest IH]; intros st st' e Hrun.
  - discriminate.
  - simpl in Hrun.
    destruct (read_section config st name section) as [st1|e1] eqn:E.
    + eauto.
    + injection Hrun as <- <-. eapply read_section_raises; eauto.
Qed.

(** The tuple of a section depends on the file's default section only
    through its options. *)
Lemma section_tuple_defaults config config' item :
  default_options config' = default_options config ->
  section_tuple config' item = section_tuple config item.
Proof.
  destruct config, config'. simpl. intros ->. reflexivity.
Qed.

(** [read], for a file that parsed: either reading the log level raises
    and [self] is as before, or the loop decides the outcome. *)
Lemma read_cases self config :
  (exists e,
      match log_level self with
      | None => getloglevel config [] "LogLevel"
      | Some l => Ok (Some l)
      end = Raise e
      /\ read self (Ok config) = (self, Raise e))
  \/ (exists level st raised,
         match log_level self with
         | None => getloglevel config [] "LogLevel"
         | Some l => Ok (Some l)
         end = Ok level
         /\ read_sections config
              {| listen_set := ∅; loop_servers := servers self |}
              (config_items config) = (st, raised)
         /\ read self (Ok config)
            = ({| config_file := config_file self;
                  log_level := level;
                  servers := loop_servers st |},
               match raised with
               | None => Ok tt
               | Some ValueError => Raise (PanConfigError ValueFault)
               | Some e => Raise e
               end)).
Proof.
  unfold Config.read. cbv zeta.
  destruct (match log_level self with
            | Some l => Ok (Some l)
            | None => getloglevel config [] "LogLevel"
            end) as [level|e].
  - right.
    destruct (Config.read_sections _ _ _ _ config _ (config_items config))
      as [st raised].
    exists level, st, raised. repeat split.
    destruct raised as [[]|]; reflexivity.
  - left. exists e. split; reflexivity.
Qed.

Lemma getloglevel_raises config section name e :
  getloglevel config section name = Raise e -> interpolation_exn e.
Proof.
  unfold getloglevel, get_conv, mbind, res_bind.
  destruct (section_get config section name) as [[v|]|e0] eqn:E;
    try discriminate.
  intros [= <-]. eapply section_get_raises; eauto.
Qed.

(** What [read] raises on a file that parsed. *)
Lemma read_parsed_raises self config e :
  snd (read self (Ok config)) = Raise e ->
  (exists why, e = PanConfigError why) \/ interpolation_exn e.
Proof.
  destruct (read_cases self config)
    as [(e0 & Hlevel & ->)|(level & st & raised & _ & Hrun & ->)]; simpl.
  - intros [= <-]. right.
    destruct (log_level self); [discriminate|].
    eapply getloglevel_raises; eauto.
  - destruct raised as [e1|]; [|discriminate].
    destruct (read_sections_raises _ _ _ _ _ Hrun) as [[->|[f ->]]|[why ->]];
      intros [= <-]; eauto.
Qed.

(** When the loop cannot run to its end, [read] raises. *)
Lemma read_raises_unless_loop_completes self config :
  (forall st, read_sections config
                {| listen_set := ∅; loop_servers := servers self |}
                (config_items config) <> (st, None)) ->
  exists e,
    snd (read self (Ok config)) = Raise e
    /\ ((exists why, e = PanConfigError why) \/ interpolation_exn e).
Proof.
  intros Hnot.
  assert (exists e, snd (read self (Ok config)) = Raise e) as [e He].
  { destruct (read_cases self config)
      as [(e0 & _ & ->)|(level & st & raised & _ & Hrun & ->)]; simpl; eauto.
    destruct raised as [[]|]; eauto. now apply Hnot in Hrun. }
  exists e. split; [exact He|]. eapply read_parsed_raises; eauto.
Qed.

(** A loop that runs to its end computed a listen tuple for every section
    it did not skip. *)
Lemma read_sections_defined config items : forall st st' item,
  read_sections config st items = (st', None) ->
  item ∈ items -> fst item <> "Default" ->
  exists t, section_tuple config item = Some t.
Proof.
  induction items as [|[name section] rest IH]; intros st st' item Hrun Hin Hne.
  - inversion Hin.
  - simpl in Hrun.
    destruct (read_section config st name section) as [st1|e] eqn:E;
      [|discriminate].
    apply elem_of_cons in Hin as [->|Hin]; [|eauto].
    simpl in Hne.
    destruct (read_section_ok _ _ _ _ _ Hne E) as (t & Ht & _).
    exists t. unfold Config.section_tuple. simpl.
    destruct (String.eqb_spec name "Default"); [contradiction|assumption].
Qed.

(** Sections whose ListenAddress and ListenPort options read the same give
    the same tuple. *)
Lemma section_tuple_same_text config x y :
  fst x <> "Default" -> fst y <> "Default" ->
  section_get config (snd x) "ListenAddress"
  = section_get config (snd y) "ListenAddress" ->
  section_get config (snd x) "ListenPort"
  = section_get config (snd y) "ListenPort" ->
  section_tuple config x = section_tuple config y.
Proof.
  intros Hx Hy Ha Hp.
  unfold Config.section_tuple, Config.listen_tuple_of, Config.getaddress,
    Config.getint, Config.get_conv.
  destruct (String.eqb_spec (fst x) "Default"); [contradiction|].
  destruct (String.eqb_spec (fst y) "Default"); [contradiction|].
  now rewrite Ha, Hp.
Qed.

(** No file that has the sections of [config] in some order, two of them
    with the same listen tuple, gets through the loop. *)
Lemma read_sections_clash config config' srv st i j x y t :
  default_options config' = default_options config ->
  sections config' ≡ₚ sections config ->
  i <> j ->
  sections config !! i = Some x -> sections config !! j = Some y ->
  section_tuple config x = Some t -> section_tuple config y = Some t ->
  read_sections config' {| listen_set := ∅; loop_servers := srv |}
    (config_items config') <> (st, None).
Proof.
  intros Hd Hperm Hij Hi Hj Hx Hy Hrun.
  symmetry in Hperm.
  apply Permutation_inj in Hperm as (_ & f & Hinj & Hf).
  rewrite Hf in Hi, Hj.
  rewrite <- (section_tuple_defaults _ _ x Hd) in Hx.
  rewrite <- (section_tuple_defaults _ _ y Hd) in Hy.
  apply Hij, Hinj.
  assert (S (f i) = S (f j)) as [= ->]; [|reflexivity].
  eapply (read_sections_distinct _ _ _ _ (S (f i)) (S (f j)));
    [exact Hrun| | |exact Hx|exact Hy]; assumption.
Qed.

(** *** Files without "%" *)

Lemma dict_get_percent_free (d : dict string) key v :
  Forall (fun kv => has_percent (snd kv) = false) d ->
  dict_get d key = Some v -> has_percent v = false.
Proof.
  induction 1 as [|[k' v'] d Hv Hd IH]; simpl; [discriminate|].
  destruct (String.eqb k' key); [now intros [= <-]|exact IH].
Qed.

Lemma section_lookup_percent_free config section key v :
  percent_free config ->
  section = [] \/ (exists name, (name, section) ∈ sections config) ->
  section_lookup config section key = Some v -> has_percent v = false.
Proof.
  intros [Hdefaults Hsections] Hsec. unfold section_lookup.
  destruct (dict_get section key) as [v0|] eqn:E0.
  - intros [= <-]. destruct Hsec as [->|[name Hin]]; [discriminate|].
    rewrite Forall_forall in Hsections.
    eapply dict_get_percent_free; [exact (Hsections _ Hin)|exact E0].
  - destruct (dict_get (default_options config) key) as [v1|] eqn:E1.
    + intros [= <-]. eapply dict_get_percent_free; eauto.
    + apply (dict_get_percent_free parser_defaults key v).
      repeat constructor.
Qed.

(** Where no value a section can see holds a "%", the getters raise
    [ValueError] only. *)
Lemma get_conv_plain {A} (conv : string -> res A) config section name e :
  (forall key v, section_lookup config section key = Some v ->
                 has_percent v = false) ->
  (forall v e', conv v = Raise e' -> e' = ValueError) ->
  get_conv conv config section name = Raise e -> e = ValueError.
Proof.
  intros Hplain Hconv. unfold get_conv, section_get, mbind, res_bind.
  destruct (section_lookup config section (lower name)) as [v|] eqn:E;
    [|discriminate].
  rewrite (before_get_plain config section v) by (eapply Hplain; eauto).
  destruct (conv v) eqn:Ec; [discriminate|]. intros [= <-]. eauto.
Qed.

Lemma get_conv_percent_free {A} (conv : string -> res A) config section name e :
  percent_free config ->
  section = [] \/ (exists n, (n, section) ∈ sections config) ->
  (forall v e', conv v = Raise e' -> e' = ValueError) ->
  get_conv conv config section name = Raise e -> e = ValueError.
Proof.
  intros Hfree Hsec. apply get_conv_plain.
  intros key v. now apply section_lookup_percent_free.
Qed.

Lemma parse_url_raises v e : parse_url v = Raise e -> e = ValueError.
Proof.
  unfold Config.parse_url, mbind, res_bind.
  destruct (urlparse v) as [u|]; simpl; [|congruence].
  destruct (negb _); [congruence|].
  destruct (url_port u); simpl; congruence.
Qed.

Lemma parse_address_raises v e : parse_address v = Raise e -> e = ValueError.
Proof.
  unfold Config.parse_address.
  destruct (String.eqb v "localhost"); apply lift_value_error_raises.
Qed.

Lemma convert_to_boolean_raises v e :
  convert_to_boolean v = Raise e -> e = ValueError.
Proof. unfold convert_to_boolean. repeat destruct (_ || _)%bool; congruence. Qed.

Section PlainSection.
Variables (config : ParsedConfig) (section : dict string).
Hypothesis plain : forall key v,
  section_lookup config section key = Some v -> has_percent v = false.

Lemma geturl_plain name e :
  geturl urlparse url_port config section name = Raise e -> e = ValueError.
Proof. apply get_conv_plain; [exact plain|apply parse_url_raises]. Qed.

Lemma getaddress_plain name e :
  getaddress ip_address config section name = Raise e -> e = ValueError.
Proof. apply get_conv_plain; [exact plain|apply parse_address_raises]. Qed.

Lemma getint_plain name e :
  getint py_int config section name = Raise e -> e = ValueError.
Proof.
  apply get_conv_plain; [exact plain|].
  intros v e'. apply lift_value_error_raises.
Qed.

Lemma getboolean_plain name e :
  getboolean config section name = Raise e -> e = ValueError.
Proof. apply get_conv_plain; [exact plain|apply convert_to_boolean_raises]. Qed.

Lemma read_section_plain st name e :
  read_section config st name section = Raise e ->
  e = ValueError \/ exists why, e = PanConfigError why.
Proof.
  intros H.
  destruct (read_section_raises _ _ _ _ _ H) as [[->|[f ->]]|Hpan]; eauto.
  exfalso. unfold Config.read_section, mbind, res_bind in H.
  destruct (String.eqb name "Default"); [discriminate H|].
  destruct (Config.geturl _ _ _ _ "Homeserver") as [[h|]|e0] eqn:E0;
    [| discriminate H | apply geturl_plain in E0; congruence].
  destruct (Config.getaddress _ _ _ "ListenAddress") as [la|e1] eqn:E1;
    [| apply getaddress_plain in E1; congruence].
  destruct (Config.getint _ _ _ "ListenPort") as [lp|e2] eqn:E2;
    [| apply getint_plain in E2; congruence].
  destruct (Config.getboolean _ _ "SSL") as [ssl|e3] eqn:E3;
    [| apply getboolean_plain in E3; congruence].
  destruct (Config.geturl _ _ _ _ "Proxy") as [px|e4] eqn:E4;
    [| apply geturl_plain in E4; congruence].
  destruct (bool_decide _); discriminate H.
Qed.
End PlainSection.

Lemma read_section_percent_free config st name section e :
  percent_free config -> (name, section) ∈ sections config ->
  read_section config st name section = Raise e ->
  e = ValueError \/ exists why, e = PanConfigError why.
Proof.
  intros Hfree Hin. apply read_section_plain.
  intros key v. apply section_lookup_percent_free; eauto.
Qed.

Lemma read_sections_percent_free config items : forall st st' e,
  percent_free config ->
  (forall item, item ∈ items -> item ∈ sections config) ->
  read_sections config st items = (st', Some e) ->
  e = ValueError \/ exists why, e = PanConfigError why.
Proof.
  induction items as [|[name section] rest IH]; intros st st' e Hfree Hsub Hrun.
  - discriminate.
  - simpl in Hrun.
    destruct (read_section config st name section) as [st1|e1] eqn:E.
    + eapply IH; eauto. intros item Hitem. apply Hsub.
      now apply list_elem_of_further.
    + injection Hrun as <- <-.
      eapply read_section_percent_free; eauto. apply Hsub, list_elem_of_here.
Qed.

(** On a file without "%", [read] raises [PanConfigError] or returns. *)
Lemma read_percent_free_raises self config e :
  percent_free config ->
  snd (read self (Ok config)) = Raise e -> exists why, e = PanConfigError why.
Proof.
  intros Hfree.
  destruct (read_cases self config)
    as [(e0 & Hlevel & ->)|(level & st & raised & _ & Hrun & ->)]; simpl.
  - intros [= <-]. exfalso.
    destruct (log_level self); [discriminate|].
    apply (get_conv_percent_free _ config [] "LogLevel") in Hlevel as Hv;
      [|assumption|now left|discriminate].
    subst. apply getloglevel_raises in Hlevel as [f Hf]. discriminate.
  - destruct raised as [e1|]; [|discriminate].
    simpl in Hrun.
    destruct (read_sections_percent_free config (sections config) _ _ _ Hfree
                (fun item H => H) Hrun) as [->|[why ->]];
      intros [= <-]; eauto.
Qed.


(** ** Further properties of [read] and the converters *)

(** [parse_url] hands back what [urlparse] returned, and only for the
    schemes http and https with a port that can be read; in every other
    case it raises [ValueError]. *)
Theorem parse_url_http_only (value : string) :
  match parse_url value with
  | Ok u =>
      urlparse value = Some u
      /\ (scheme u = "http" \/ scheme u = "https")
      /\ is_Some (url_port u)
  | Raise e =>
      e = ValueError
      /\ (urlparse value = None
          \/ exists u, urlparse value = Some u
                       /\ ((scheme u <> "http" /\ scheme u <> "https")
                           \/ url_port u = None))
  end.
Proof.
  unfold Config.parse_url, mbind, res_bind.
  destruct (urlparse value) as [u|]; simpl; [|split; [reflexivity|now left]].
  destruct (String.eqb_spec (scheme u) "http") as [Hh|Hh]; simpl.
  - destruct (url_port u) as [port|] eqn:Hp; simpl.
    + repeat split; eauto.
    + split; [reflexivity|]. right. exists u. split; [reflexivity|now right].
  - destruct (String.eqb_spec (scheme u) "https") as [Hs|Hs]; simpl.
    + destruct (url_port u) as [port|] eqn:Hp; simpl.
      * repeat split; eauto.
      * split; [reflexivity|]. right. exists u. split; [reflexivity|now right].
    + split; [reflexivity|]. right. exists u. split; [reflexivity|now left].
Qed.

(** What a completed iteration read and stored. *)
Lemma read_section_ok_full config st name section st' :
  name <> "Default" ->
  read_section config st name section = Ok st' ->
  exists h la lp s p,
    geturl urlparse url_port config section "Homeserver" = Ok (Some h)
    /\ getaddress ip_address config section "ListenAddress" = Ok la
    /\ getint py_int config section "ListenPort" = Ok lp
    /\ getboolean config section "SSL" = Ok s
    /\ geturl urlparse url_port config section "Proxy" = Ok p
    /\ loop_servers st'
       = dict_set (loop_servers st) name
           {| homeserver := h; listen_address := la; listen_port := lp;
              proxy := p; ssl := s |}.
Proof.
  intros Hname H. unfold Config.read_section in H.
  destruct (String.eqb_spec name "Default") as [|_]; [contradiction|].
  step_getters H.
  all: injection H as <-; simpl.
  all: eexists _, _, _, _, _.
  all: repeat (split; [reflexivity|]); reflexivity.
Qed.

(** [read] turns every [ValueError] of the converters and every parser
    error into [PanConfigError]. What else it lets out is an
    [InterpolationError] raised when an option value of a file that parsed
    is read, or, unchanged, what reading the file raised other than a
    [configparser.Error]. *)
Theorem read_raises_only (self : PanConfig) (parsed : res ParsedConfig) (e : exn) :
  snd (read self parsed) = Raise e ->
  (exists why, e = PanConfigError why)
  \/ ((exists f, e = InterpolationError f) /\ exists config, parsed = Ok config)
  \/ (parsed = Raise e /\ e <> ConfigparserError
      /\ forall f, e <> InterpolationError f).
Proof.
  destruct parsed as [config|e0].
  - intros H. destruct (read_parsed_raises self config e H) as [Hpan|Hint]; eauto.
  - destruct e0; simpl; intros [= <-]; eauto;
      right; right; repeat split; congruence.
Qed.

Lemma get_conv_none {A} (conv : string -> res A) config section name :
  get_conv conv config section name = Ok None
  <-> section_lookup config section (lower name) = None.
Proof.
  rewrite <- section_get_none. unfold get_conv, mbind, res_bind.
  destruct (section_get config section name) as [[v|]|e]; try tauto.
  - destruct (conv v); split; discriminate.
  - split; discriminate.
Qed.

(** The options with a built-in default are found for every section. *)
Lemma section_lookup_builtin config section key :
  key = "listenaddress" \/ key = "listenport" \/ key = "ssl"
  \/ key = "loglevel" ->
  is_Some (section_lookup config section key).
Proof.
  intros [-> | [-> | [-> | ->]]]; unfold section_lookup;
    match goal with
    | |- context [dict_get section ?k] => destruct (dict_get section k); eauto
    end;
    match goal with
    | |- context [dict_get (default_options config) ?k] =>
        destruct (dict_get (default_options config) k); eauto
    end.
Qed.

Lemma get_conv_builtin {A} (conv : string -> res A) config section name o :
  name = "ListenAddress" \/ name = "ListenPort" \/ name = "SSL"
  \/ name = "LogLevel" ->
  get_conv conv config section name = Ok o -> is_Some o.
Proof.
  intros Hname Hget. destruct o; [eauto|].
  apply get_conv_none in Hget.
  destruct (section_lookup_builtin config section (lower name)) as [v Hv];
    [|congruence].
  destruct Hname as [-> | [-> | [-> | ->]]]; vm_compute; tauto.
Qed.

Lemma read_section_homeserver config st name section n :
  read_section config st name section
    = Raise (PanConfigError (HomeserverNotSet n)) ->
  n = name /\ name <> "Default"
  /\ section_lookup config section "homeserver" = None.
Proof.
  intros H. unfold Config.read_section in H.
  destruct (String.eqb_spec name "Default") as [|Hne]; [discriminate H|].
  step_getters H.
  all: injection H as <-; repeat split; [assumption|].
  all: now apply (get_conv_none parse_url config section "Homeserver").
Qed.

(** [read] raises the homeserver error only for a section that has no
    Homeserver option, in the section or the defaults, and a file with such
    a section is never accepted: [read] raises [PanConfigError] or lets out
    the [InterpolationError] of an option value it read first. *)
Theorem read_homeserver_required (self : PanConfig) (config : ParsedConfig) :
  (forall name,
      snd (read self (Ok config)) = Raise (PanConfigError (HomeserverNotSet name)) ->
      exists section,
        (name, section) ∈ sections config /\ name <> "Default"
        /\ section_lookup config section "homeserver" = None)
  /\ (forall name section,
         (name, section) ∈ sections config -> name <> "Default" ->
         section_lookup config section "homeserver" = None ->
         exists e,
           snd (read self (Ok config)) = Raise e
           /\ ((exists why, e = PanConfigError why)
               \/ exists f, e = InterpolationError f)
           /\ (percent_free config -> exists why, e = PanConfigError why)).
Proof.
  split.
  - intros name Hraised.
    destruct (read_cases self config)
      as [(e0 & Hlevel & Hread)|(level & st & raised & _ & Hrun & Hread)];
      rewrite Hread in Hraised; simpl in Hraised.
    { injection Hraised as ->.
      destruct (log_level self); [discriminate|].
      apply getloglevel_raises in Hlevel as [f Hf]. discriminate. }
    assert (raised = Some (PanConfigError (HomeserverNotSet name))) as ->.
    { destruct raised as [[]|]; try discriminate Hraised.
      now injection Hraised as ->. }
    clear Hread Hraised. simpl in Hrun. revert Hrun.
    generalize {| listen_set := ∅; loop_servers := servers self |}.
    induction (sections config) as [|[n s] rest IH]; intros st0 Hrun.
    + discriminate.
    + simpl in Hrun.
      destruct (read_section config st0 n s) as [st1|e] eqn:E.
      * destruct (IH _ Hrun) as (section & Hin & Hrest).
        exists section. split; [now apply list_elem_of_further|exact Hrest].
      * injection Hrun as _ ->.
        destruct (read_section_homeserver _ _ _ _ _ E) as (-> & Hne & Hnone).
        exists s. split; [apply list_elem_of_here|now split].
  - intros name section Hin Hne Hnone.
    destruct (read_raises_unless_loop_completes self config) as (e & He & Hclass).
    { intros st Hrun. simpl in Hrun. revert Hrun.
      generalize {| listen_set := ∅; loop_servers := servers self |}.
      induction (sections config) as [|[n s] rest IH]; intros st0 Hrun.
      - inversion Hin.
      - simpl in Hrun.
        destruct (read_section config st0 n s) as [st1|e] eqn:E;
          [|discriminate].
        apply elem_of_cons in Hin as [[= <- <-]|Hin]; [|eauto].
        destruct (read_section_ok_full _ _ _ _ _ Hne E)
          as (h & ? & ? & ? & ? & Hh & _).
        assert (geturl urlparse url_port config section "Homeserver" = Ok None)
          as Hnone' by now apply get_conv_none.
        congruence. }
    exists e. split; [exact He|]. split; [exact Hclass|].
    intros Hfree. eapply read_percent_free_raises; eauto.
Qed.

Lemma dict_get_set_eq {V} (d : dict V) k v :
  dict_get (dict_set d k v) k = Some v.
Proof.
  induction d as [|[k' v'] d IH]; simpl.
  - now rewrite String.eqb_refl.
  - destruct (String.eqb k' k) eqn:E; simpl; now rewrite E.
Qed.

Lemma dict_get_set_ne {V} (d : dict V) k k' v :
  k <> k' -> dict_get (dict_set d k v) k' = dict_get d k'.
Proof.
  intros Hne. induction d as [|[k0 v0] d IH]; simpl.
  - destruct (String.eqb_spec k k'); [contradiction|reflexivity].
  - destruct (String.eqb_spec k0 k) as [->|Hk]; simpl.
    + destruct (String.eqb_spec k k'); [contradiction|reflexivity].
    + destruct (String.eqb k0 k'); [reflexivity|exact IH].
Qed.

(** The loop writes [self.servers] under the names of its sections only. *)
Lemma read_sections_frame config items : forall st st' raised k,
  read_sections config st items = (st', raised) ->
  k ∉ map fst items ->
  dict_get (loop_servers st') k = dict_get (loop_servers st) k.
Proof.
  induction items as [|[n s] rest IH]; intros st st' raised k Hrun Hk.
  - now injection Hrun as <- _.
  - simpl in Hrun, Hk. apply not_elem_of_cons in Hk as [Hkn Hk].
    destruct (read_section config st n s) as [st1|e] eqn:E.
    + rewrite (IH _ _ _ _ Hrun Hk).
      destruct (String.eqb_spec n "Default") as [->|Hne].
      * rewrite read_section_default in E. now injection E as <-.
      * destruct (read_section_ok_full _ _ _ _ _ Hne E)
          as (? & ? & ? & ? & ? & _ & _ & _ & _ & _ & ->).
        apply dict_get_set_ne. congruence.
    + now injection Hrun as <- _.
Qed.

(** After a loop that ran to its end, every section it did not skip has
    its entry in [self.servers], built from what the getters returned. *)
Lemma read_sections_stored config items : forall st st' name section,
  read_sections config st items = (st', None) ->
  NoDup (map fst items) ->
  (name, section) ∈ items -> name <> "Default" ->
  exists h la lp s p,
    geturl urlparse url_port config section "Homeserver" = Ok (Some h)
    /\ getaddress ip_address config section "ListenAddress" = Ok la
    /\ getint py_int config section "ListenPort" = Ok lp
    /\ getboolean config section "SSL" = Ok s
    /\ geturl urlparse url_port config section "Proxy" = Ok p
    /\ dict_get (loop_servers st') name
       = Some {| homeserver := h; listen_address := la; listen_port := lp;
                 proxy := p; ssl := s |}.
Proof.
  induction items as [|[n sec] rest IH];
    intros st st' name section Hrun Hnodup Hin Hne.
  - inversion Hin.
  - simpl in Hrun, Hnodup. apply NoDup_cons in Hnodup as [Hfresh Hnodup].
    destruct (read_section config st n sec) as [st1|e] eqn:E; [|discriminate].
    apply elem_of_cons in Hin as [[= <- <-]|Hin]; [|eauto].
    destruct (read_section_ok_full _ _ _ _ _ Hne E)
      as (h & la & lp & s & p & Hh & Ha & Hp & Hs & Hx & Hst).
    exists h, la, lp, s, p. repeat (split; [assumption|]).
    rewrite (read_sections_frame _ _ _ _ _ _ Hrun Hfresh), Hst.
    apply dict_get_set_eq.
Qed.

(** When [read] returns, [self.servers] holds for every section of the
    file (section names being unique) the server built from that section:
    its homeserver URL, the listen address, port and SSL flag, none of them
    missing, and the proxy if one is set. *)
Theorem read_stores_every_section (self : PanConfig) (config : ParsedConfig)
    (name : string) (section : dict string) :
  NoDup (map fst (sections config)) ->
  snd (read self (Ok config)) = Ok tt ->
  (name, section) ∈ sections config -> name <> "Default" ->
  exists h la lp s p,
    geturl urlparse url_port config section "Homeserver" = Ok (Some h)
    /\ getaddress ip_address config section "ListenAddress" = Ok (Some la)
    /\ getint py_int config section "ListenPort" = Ok (Some lp)
    /\ getboolean config section "SSL" = Ok (Some s)
    /\ geturl urlparse url_port config section "Proxy" = Ok p
    /\ dict_get (servers (fst (read self (Ok config)))) name
       = Some {| homeserver := h; listen_address := Some la;
                 listen_port := Some lp; proxy := p; ssl := Some s |}.
Proof.
  intros Hnodup Hok Hin Hne.
  destruct (read_cases self config)
    as [(e0 & _ & Hread)|(level & st & raised & _ & Hrun & Hread)];
    rewrite Hread in Hok |- *; simpl in Hok |- *; [discriminate Hok|].
  assert (raised = None) as ->.
  { destruct raised as [[]|]; [discriminate Hok..|reflexivity]. }
  simpl in Hrun.
  destruct (read_sections_stored _ _ _ _ _ _ Hrun Hnodup Hin Hne)
    as (h & la & lp & s & p & Hh & Ha & Hp & Hs & Hx & Hget).
  destruct (get_conv_builtin _ _ _ "ListenAddress" _ (or_introl eq_refl) Ha)
    as [la' ->].
  destruct (get_conv_builtin _ _ _ "ListenPort" _
              (or_intror (or_introl eq_refl)) Hp) as [lp' ->].
  destruct (get_conv_builtin _ _ _ "SSL" _
              (or_intror (or_intror (or_introl eq_refl))) Hs) as [s' ->].
  exists h, la', lp', s', p. repeat (split; [assumption|]). exact Hget.
Qed.


Lemma dict_set_keeps {V} (d : dict V) k k' v :
  is_Some (dict_get d k) -> is_Some (dict_get (dict_set d k' v) k).
Proof.
  intros Hk. destruct (String.eqb_spec k' k) as [->|Hne].
  - rewrite dict_get_set_eq. eauto.
  - now rewrite dict_get_set_ne.
Qed.

Lemma read_sections_keep config items : forall st st' raised k,
  read_sections config st items = (st', raised) ->
  is_Some (dict_get (loop_servers st) k) ->
  is_Some (dict_get (loop_servers st') k).
Proof.
  induction items as [|[n s] rest IH]; intros st st' raised k Hrun Hk.
  - now injection Hrun as <- _.
  - simpl in Hrun.
    destruct (read_section config st n s) as [st1|e] eqn:E.
    + apply (IH _ _ _ _ Hrun).
      destruct (String.eqb_spec n "Default") as [->|Hne].
      * rewrite read_section_default in E. now injection E as <-.
      * destruct (read_section_ok_full _ _ _ _ _ Hne E)
          as (? & ? & ? & ? & ? & _ & _ & _ & _ & _ & ->).
        now apply dict_set_keeps.
    + now injection Hrun as <- _.
Qed.

(** [read] never drops a server: a name that has an entry in
    [self.servers] before the call has one after it, whether the call
    returns or raises. *)
Theorem read_keeps_servers (self : PanConfig) (parsed : res ParsedConfig)
    (name : string) :
  is_Some (dict_get (servers self) name) ->
  is_Some (dict_get (servers (fst (read self parsed))) name).
Proof.
  intros Hname. destruct parsed as [config|e].
  - destruct (read_cases self config)
      as [(e0 & _ & ->)|(level & st & raised & _ & Hrun & ->)]; simpl;
      [exact Hname|].
    now apply (read_sections_keep _ _ _ _ _ _ Hrun).
  - destruct e; exact Hname.
Qed.

(** Two sections the loop does not skip, with the same listen tuple or
    both with none, keep [read] from returning. *)
Lemma read_equal_tuples_raise self config i j x y :
  i <> j ->
  sections config !! i = Some x -> sections config !! j = Some y ->
  fst x <> "Default" -> fst y <> "Default" ->
  section_tuple config x = section_tuple config y ->
  exists e,
    snd (read self (Ok config)) = Raise e
    /\ ((exists why, e = PanConfigError why)
        \/ exists f, e = InterpolationError f)
    /\ (percent_free config -> exists why, e = PanConfigError why).
Proof.
  intros Hij Hi Hj Hx Hy Heq.
  destruct (read_raises_unless_loop_completes self config) as (e & He & Hclass).
  { intros st Hrun.
    assert (x ∈ config_items config) as Hin.
    { apply list_elem_of_further. eapply list_elem_of_lookup_2; eauto. }
    destruct (read_sections_defined _ _ _ _ _ Hrun Hin Hx) as (t & Ht).
    apply (read_sections_clash config config (servers self) st i j x y t
             eq_refl (Permutation_refl _) Hij Hi Hj Ht);
      [now rewrite <- Heq|exact Hrun]. }
  exists e. split; [exact He|]. split; [exact Hclass|].
  intros Hfree. eapply read_percent_free_raises; eauto.
Qed.

(** "localhost" names the loopback address: a file with a section that
    reads its ListenAddress as "localhost" and another that reads it as
    "127.0.0.1", both reading the same ListenPort, is never accepted:
    [read] raises [PanConfigError], or lets out the [InterpolationError] of
    an option value it read first; without any "%" in the file it is
    [PanConfigError]. *)
Theorem read_localhost_is_loopback (self : PanConfig) (config : ParsedConfig)
    (i j : nat) (x y : string * dict string) :
  i <> j ->
  sections config !! i = Some x -> sections config !! j = Some y ->
  fst x <> "Default" -> fst y <> "Default" ->
  section_get config (snd x) "ListenAddress" = Ok (Some "localhost") ->
  section_get config (snd y) "ListenAddress" = Ok (Some "127.0.0.1") ->
  section_get config (snd x) "ListenPort" = section_get config (snd y) "ListenPort" ->
  exists e,
    snd (read self (Ok config)) = Raise e
    /\ ((exists why, e = PanConfigError why)
        \/ exists f, e = InterpolationError f)
    /\ (percent_free config -> exists why, e = PanConfigError why).
Proof.
  intros Hij Hi Hj Hx Hy Hax Hay Hp.
  apply (read_equal_tuples_raise self config i j x y); try assumption.
  unfold Config.section_tuple, Config.listen_tuple_of, Config.getaddress,
    Config.getint, get_conv.
  destruct (String.eqb_spec (fst x) "Default"); [contradiction|].
  destruct (String.eqb_spec (fst y) "Default"); [contradiction|].
  rewrite Hax, Hay, Hp. reflexivity.
Qed.

(** Sections that set neither ListenAddress nor ListenPort inherit both
    from the defaults. When the inherited texts hold no "%", so that they
    read the same in every section, a file with two such sections is never
    accepted: [read] raises [PanConfigError], or lets out the
    [InterpolationError] of an option value it read first. *)
Theorem read_inherited_listen_clash (self : PanConfig) (config : ParsedConfig)
    (i j : nat) (x y : string * dict string) :
  i <> j ->
  sections config !! i = Some x -> sections config !! j = Some y ->
  fst x <> "Default" -> fst y <> "Default" ->
  dict_get (snd x) "listenaddress" = None -> dict_get (snd x) "listenport" = None ->
  dict_get (snd y) "listenaddress" = None -> dict_get (snd y) "listenport" = None ->
  (forall key v,
      key = "listenaddress" \/ key = "listenport" ->
      dict_get (default_options config) key = Some v -> has_percent v = false) ->
  exists e,
    snd (read self (Ok config)) = Raise e
    /\ ((exists why, e = PanConfigError why)
        \/ exists f, e = InterpolationError f)
    /\ (percent_free config -> exists why, e = PanConfigError why).
Proof.
  intros Hij Hi Hj Hx Hy Hxa Hxp Hya Hyp Hplain.
  apply (read_equal_tuples_raise self config i j x y); try assumption.
  assert (forall key section,
             key = "listenaddress" \/ key = "listenport" ->
             dict_get section key = None ->
             exists v, section_lookup config section key = Some v
                       /\ section_lookup config [] key = Some v
                       /\ has_percent v = false) as Hinherit.
  { intros key section Hkey Hnone. unfold section_lookup. rewrite Hnone. simpl.
    destruct (dict_get (default_options config) key) as [v|] eqn:E.
    - exists v. repeat split. eapply Hplain; eauto.
    - destruct Hkey as [-> | ->]; eexists; repeat split. }
  assert (forall name key section section',
             lower name = key ->
             key = "listenaddress" \/ key = "listenport" ->
             dict_get section key = None -> dict_get section' key = None ->
             section_get config section name = section_get config section' name)
    as Hsame.
  { intros name key section section' Hlower Hkey Hn Hn'.
    unfold section_get. rewrite Hlower.
    destruct (Hinherit key section Hkey Hn) as (v & -> & Hv & Hfree).
    destruct (Hinherit key section' Hkey Hn') as (v' & -> & Hv' & _).
    assert (v' = v) as -> by congruence.
    now rewrite !before_get_plain. }
  apply section_tuple_same_text; try assumption.
  - apply (Hsame "ListenAddress" "listenaddress"); auto.
  - apply (Hsame "ListenPort" "listenport"); auto.
Qed.
End ReadProperties.

Section ReadExamples.
Import Py Config.

Example read_clashing :
  snd (Samples.read Samples.fresh_config (Ok Samples.clashing))
  = Raise (PanConfigError (ListenAlreadyDefined "bob")).
Proof. vm_compute. reflexivity. Qed.

Example read_clashing_reordered :
  snd (Samples.read Samples.fresh_config (Ok Samples.clashing_reordered))
  = Raise (PanConfigError (ListenAlreadyDefined "alice")).
Proof. vm_compute. reflexivity. Qed.

Example read_distinct :
  snd (Samples.read Samples.fresh_config (Ok Samples.distinct)) = Ok tt
  /\ log_level (fst (Samples.read Samples.fresh_config (Ok Samples.distinct)))
     = Some DEBUG
  /\ dict_keys (servers (fst (Samples.read Samples.fresh_config
                                (Ok Samples.distinct))))
     = ["alice"; "bob"].
Proof. vm_compute. repeat split. Qed.

(** An inherited default is interpolated with the options of the section
    that asks for it: two sections that set no ListenPort of their own read
    different ports from one default text, and the file is accepted. *)
Example read_interpolated_default :
  section_get Samples.interpolated
    [("homeserver", "https://alice.example.org"); ("n", "09")] "ListenPort"
  = Ok (Some "8009")
  /\ section_get Samples.interpolated
       [("homeserver", "https://bob.example.org"); ("n", "10")] "ListenPort"
     = Ok (Some "8010")
  /\ snd (Samples.read Samples.fresh_config (Ok Samples.interpolated)) = Ok tt.
Proof. vm_compute. repeat split. Qed.

(** C6. Evaluation at a file whose two sections both listen on
    127.0.0.1:8010 and whose first section has a "%" that starts no
    interpolation in its Homeserver: whatever the standard-library parsers
    are, [read] does not raise [PanConfigError] but lets the
    [InterpolationError] of the getter through. *)
Theorem read_duplicate_listen_interpolation_error :
  Samples.section_tuple Samples.percent_clash
    ("alice", [("homeserver", "https://alice.example.org/%zz");
               ("listenaddress", "127.0.0.1"); ("listenport", "8010")])
  = Some (Some (IPv4Address 2130706433), Some 8010)
  /\ Samples.section_tuple Samples.percent_clash
       ("bob", [("homeserver", "https://bob.example.org");
                ("listenaddress", "127.0.0.1"); ("listenport", "8010")])
     = Some (Some (IPv4Address 2130706433), Some 8010)
  /\ forall ip_address urlparse url_port py_int,
       snd (Config.read ip_address urlparse url_port py_int
              Samples.fresh_config (Ok Samples.percent_clash))
       = Raise (InterpolationError BadSyntax).
Proof.
  split; [vm_compute; reflexivity|]. split; [vm_compute; reflexivity|].
  intros ip_address urlparse url_port py_int. reflexivity.
Qed.

End ReadExamples.

Section ReadMoreExamples.
Import Py Config.

Lemma read_raises_only_witness :
  (exists why, InterpolationError BadSyntax = PanConfigError why)
  \/ ((exists f, InterpolationError BadSyntax = InterpolationError f)
      /\ exists config, Ok Samples.percent_clash = Ok config)
  \/ (Ok Samples.percent_clash = Raise (InterpolationError BadSyntax)
      /\ InterpolationError BadSyntax <> ConfigparserError
      /\ forall f, InterpolationError BadSyntax <> InterpolationError f).
Proof.
  apply (read_raises_only Samples.ip_address Samples.urlparse Samples.url_port
           Samples.py_int Samples.fresh_config (Ok Samples.percent_clash)).
  vm_compute. reflexivity.
Defined.

Lemma read_homeserver_required_witness :
  exists e,
    snd (Samples.read Samples.fresh_config (Ok Samples.no_homeserver)) = Raise e
    /\ ((exists why, e = PanConfigError why)
        \/ exists f, e = InterpolationError f)
    /\ (percent_free Samples.no_homeserver -> exists why, e = PanConfigError why).
Proof.
  apply (proj2 (read_homeserver_required Samples.ip_address Samples.urlparse
                  Samples.url_port Samples.py_int Samples.fresh_config
                  Samples.no_homeserver) "bob" [("listenport", "8010")]).
  - apply list_elem_of_further, list_elem_of_here.
  - discriminate.
  - reflexivity.
Defined.

Lemma read_stores_every_section_witness :
  exists h la lp s p,
    geturl Samples.urlparse Samples.url_port Samples.distinct
      [("homeserver", "https://bob.example.org"); ("listenport", "8010")]
      "Homeserver" = Ok (Some h)
    /\ getaddress Samples.ip_address Samples.distinct
         [("homeserver", "https://bob.example.org"); ("listenport", "8010")]
         "ListenAddress" = Ok (Some la)
    /\ getint Samples.py_int Samples.distinct
         [("homeserver", "https://bob.example.org"); ("listenport", "8010")]
         "ListenPort" = Ok (Some lp)
    /\ getboolean Samples.distinct
         [("homeserver", "https://bob.example.org"); ("listenport", "8010")]
         "SSL" = Ok (Some s)
    /\ geturl Samples.urlparse Samples.url_port Samples.distinct
         [("homeserver", "https://bob.example.org"); ("listenport", "8010")]
         "Proxy" = Ok p
    /\ dict_get (servers (fst (Samples.read Samples.fresh_config
                                 (Ok Samples.distinct)))) "bob"
       = Some {| homeserver := h; listen_address := Some la;
                 listen_port := Some lp; proxy := p; ssl := Some s |}.
Proof.
  apply (read_stores_every_section Samples.ip_address Samples.urlparse
           Samples.url_port Samples.py_int Samples.fresh_config
           Samples.distinct "bob"
           [("homeserver", "https://bob.example.org"); ("listenport", "8010")]).
  - apply (bool_decide_unpack _). vm_compute. exact I.
  - vm_compute. reflexivity.
  - apply list_elem_of_further, list_elem_of_here.
  - discriminate.
Defined.

Lemma read_keeps_servers_witness :
  is_Some (dict_get (servers (fst (Samples.read Samples.loaded
                                     (Ok Samples.clashing)))) "alice").
Proof.
  apply (read_keeps_servers Samples.ip_address Samples.urlparse
           Samples.url_port Samples.py_int Samples.loaded
           (Ok Samples.clashing) "alice").
  vm_compute. eexists. reflexivity.
Defined.

Lemma read_localhost_is_loopback_witness :
  exists e,
    snd (Samples.read Samples.fresh_config (Ok Samples.clashing)) = Raise e
    /\ ((exists why, e = PanConfigError why)
        \/ exists f, e = InterpolationError f)
    /\ (percent_free Samples.clashing -> exists why, e = PanConfigError why).
Proof.
  apply (read_localhost_is_loopback Samples.ip_address Samples.urlparse
           Samples.url_port Samples.py_int Samples.fresh_config
           Samples.clashing 0%nat 1%nat
           ("alice", [("homeserver", "https://alice.example.org");
                      ("listenport", "8010")])
           ("bob", [("homeserver", "https://bob.example.org");
                    ("listenaddress", "127.0.0.1");
                    ("listenport", "8010")]));
    try reflexivity; try discriminate; lia.
Defined.

Lemma read_inherited_listen_clash_witness :
  exists e,
    snd (Samples.read Samples.fresh_config (Ok Samples.both_default)) = Raise e
    /\ ((exists why, e = PanConfigError why)
        \/ exists f, e = InterpolationError f)
    /\ (percent_free Samples.both_default -> exists why, e = PanConfigError why).
Proof.
  apply (read_inherited_listen_clash Samples.ip_address Samples.urlparse
           Samples.url_port Samples.py_int Samples.fresh_config
           Samples.both_default 0%nat 1%nat
           ("alice", [("homeserver", "https://alice.example.org")])
           ("bob", [("homeserver", "https://bob.example.org")]));
    try reflexivity; try discriminate; try lia.
  intros key v [-> | ->] H; vm_compute in H; [discriminate H|].
  injection H as <-. reflexivity.
Defined.
End ReadMoreExamples.

(** * Properties of [ui.py] *)

Section CommandProperties.
Import Py Ui.

Lemma message_id_spec c w n :
  counters w !! c = Some n ->
  IdCounter.message_id c w = Some (n, set_counters (insert c (n + 1)) w).
Proof. intros H. unfold IdCounter.message_id. now rewrite H. Qed.

Lemma put_spec l m w q :
  queues w !! l = Some q ->
  PyQueue.put l m w
  = Some (tt, set_queues (insert l {| items := items q ++ [m];
                                      unfinished_tasks := S (unfinished_tasks q) |}) w).
Proof. intros H. unfold PyQueue.put. now rewrite H. Qed.

Lemma devices_send_spec mk (d : Devices.t) w n q a b c :
  get_message_id (mk n a b c) = Some n ->
  counters w !! Devices.id_counter d = Some n ->
  queues w !! Devices.queue d = Some q ->
  Devices.send mk a b c (d, w)
  = Some (n, (d, after_command (Devices.id_counter d) (Devices.queue d) n q
                   (mk n a b c) w)).
Proof.
  intros Hid Hc Hq.
  unfold Devices.send, mbind, ST_bind, self_of, on_world, Devices.message_id. simpl.
  rewrite (message_id_spec _ _ _ Hc). simpl.
  rewrite (put_spec _ _ _ q) by exact Hq. simpl.
  unfold return_message_id. rewrite Hid. reflexivity.
Qed.

Lemma control_keys_spec (self : Control.t) w n q a b c :
  counters w !! Control.id_counter self = Some n ->
  queues w !! Control.queue self = Some q ->
  Control.ExportKeys self a b c w
  = Some (n, after_command (Control.id_counter self) (Control.queue self) n q
               (ExportKeysMessage n a b c) w)
  /\ Control.ImportKeys self a b c w
     = Some (n, after_command (Control.id_counter self) (Control.queue self) n q
                  (ImportKeysMessage n a b c) w).
Proof.
  intros Hc Hq.
  unfold Control.ExportKeys, Control.ImportKeys, Control.message_id, mbind, ST_bind.
  rewrite (message_id_spec _ _ _ Hc).
  split; (rewrite (put_spec _ _ _ q) by exact Hq); reflexivity.
Qed.

(** C5. [ExportKeys] and [ImportKeys] each take the next id [n] from the
    counter, append exactly one message to the command queue, an
    [ExportKeysMessage] (respectively [ImportKeysMessage]) holding [n] and
    the three arguments as given, and return [n]; the counter then holds
    [n + 1]. Nothing else in the process state changes. *)
Theorem export_import_keys_enqueue (self : Control.t) (w : World)
    (n : Z) (q : Queue) (pan_user filepath passphrase : string) :
  counters w !! Control.id_counter self = Some n ->
  queues w !! Control.queue self = Some q ->
  Control.ExportKeys self pan_user filepath passphrase w
  = Some (n, {| counters := <[Control.id_counter self := n + 1]> (counters w);
                queues :=
                  <[Control.queue self :=
                      {| items := items q
                                  ++ [ExportKeysMessage n pan_user filepath passphrase];
                         unfinished_tasks := S (unfinished_tasks q) |}]> (queues w);
                db_users := db_users w; db_devices := db_devices w;
                bus_signals := bus_signals w; debug_log := debug_log w |})
  /\ Control.ImportKeys self pan_user filepath passphrase w
     = Some (n, {| counters := <[Control.id_counter self := n + 1]> (counters w);
                   queues :=
                     <[Control.queue self :=
                         {| items := items q
                                     ++ [ImportKeysMessage n pan_user filepath passphrase];
                            unfinished_tasks := S (unfinished_tasks q) |}]> (queues w);
                   db_users := db_users w; db_devices := db_devices w;
                   bus_signals := bus_signals w; debug_log := debug_log w |}).
Proof.
  intros Hc Hq.
  destruct (control_keys_spec self w n q pan_user filepath passphrase Hc Hq)
    as [-> ->].
  split; reflexivity.
Qed.

Lemma export_import_keys_witness :
  exists w',
    Control.ExportKeys Samples.control "alice" "/tmp/k.txt" "pw" (Samples.world [])
    = Some (0, w')
    /\ queues w' !! 2%positive
       = Some {| items := [ExportKeysMessage 0 "alice" "/tmp/k.txt" "pw"];
                 unfinished_tasks := 1 |}.
Proof.
  eexists. split.
  - apply (export_import_keys_enqueue Samples.control (Samples.world []) 0
             {| items := []; unfinished_tasks := 0 |} "alice" "/tmp/k.txt" "pw");
      reflexivity.
  - reflexivity.
Defined.

(** Start-up on an empty process state gives the sample bridge. *)
Example boot_sample :
  boot "/data" (empty_world [("alice", "ALICEDEV")] Samples.cache)
  = Some (Samples.bridge, Samples.world []).
Proof. vm_compute. reflexivity. Qed.
End CommandProperties.

Section DispatchProperties.
Import Py Ui.

Lemma dispatch_spec m g w :
  GlibT.dispatch m (g, w)
  = Some (tt, (refreshed m g w,
               match emitted_by m with
               | Some s => set_bus_signals (fun l => l ++ [s]) w
               | None => w
               end)).
Proof. destruct m; reflexivity. Qed.

(** An empty event queue: the callback returns [True] and nothing at all
    has changed. *)
Lemma message_callback_empty g w q :
  queues w !! GlibT.receive_queue g = Some q ->
  items q = [] ->
  GlibT.message_callback (g, w) = Some (true, (g, w)).
Proof.
  intros Hq Hitems.
  unfold GlibT.message_callback, mbind, ST_bind, self_of, on_world,
    PyQueue.get_nowait. simpl.
  rewrite Hq, Hitems. reflexivity.
Qed.

(** A pending event: the callback takes the head of the queue, logs it,
    dispatches it, marks it done and returns [True]. *)
Lemma message_callback_cons g w q m rest k :
  queues w !! GlibT.receive_queue g = Some q ->
  items q = m :: rest ->
  unfinished_tasks q = S k ->
  GlibT.message_callback (g, w)
  = Some (true, (refreshed m g w,
                 after_tick (GlibT.receive_queue g) m rest k w)).
Proof.
  intros Hq Hitems Hk.
  unfold GlibT.message_callback, mbind, ST_bind, self_of, on_world,
    PyQueue.get_nowait. simpl.
  rewrite Hq, Hitems. simpl.
  rewrite dispatch_spec. simpl.
  unfold PyQueue.task_done, after_tick.
  destruct (emitted_by m) as [s|]; simpl;
    rewrite lookup_insert_eq; simpl; rewrite Hk;
    unfold mret, ST_ret, refreshed, set_queues, set_bus_signals, set_debug_log;
    simpl; rewrite insert_insert_eq, ?app_nil_r; reflexivity.
Qed.

Lemma refreshed_receive_queue m g w :
  GlibT.receive_queue (refreshed m g w) = GlibT.receive_queue g.
Proof. destruct m; reflexivity. Qed.

(** C3. One run of [message_callback] looks at the event queue once. If the
    queue is empty it returns [True] and the bridge and the whole process
    state are as before: nothing dispatched, nothing logged, no task marked
    done. Otherwise it removes the head of the queue and nothing else, and
    dispatches that one message: the rest of the queue stays in place and at
    most one signal is emitted. *)
Theorem message_callback_one_event (g : GlibT.t) (w : World) (q : Queue) :
  queues w !! GlibT.receive_queue g = Some q ->
  (length (items q) <= unfinished_tasks q)%nat ->
  match items q with
  | [] => GlibT.message_callback (g, w) = Some (true, (g, w))
  | m :: rest =>
      exists g' w',
        GlibT.message_callback (g, w) = Some (true, (g', w'))
        /\ queues w' !! GlibT.receive_queue g
           = Some {| items := rest;
                     unfinished_tasks := Nat.pred (unfinished_tasks q) |}
        /\ debug_log w' = debug_log w ++ [m]
        /\ bus_signals w' = bus_signals w ++ option_list (emitted_by m)
        /\ (length (bus_signals w') <= S (length (bus_signals w)))%nat
        /\ g' = refreshed m g w
  end.
Proof.
  intros Hq Hlen. destruct (items q) as [|m rest] eqn:Hitems.
  - now apply (message_callback_empty g w q).
  - simpl in Hlen. destruct (unfinished_tasks q) as [|k] eqn:Hk; [lia|].
    eexists _, _. split; [now apply (message_callback_cons g w q m rest k)|].
    repeat split; simpl.
    + apply lookup_insert_eq.
    + rewrite length_app. destruct (emitted_by m); simpl; lia.
Qed.

Lemma message_callback_one_event_witness :
  GlibT.message_callback (Samples.bridge, Samples.world [])
  = Some (true, (Samples.bridge, Samples.world [])).
Proof.
  apply (message_callback_one_event Samples.bridge (Samples.world [])
           {| items := []; unfinished_tasks := 0 |}).
  - reflexivity.
  - simpl. lia.
Defined.

(** Draining the queue one run at a time: every run returns [True], every
    message reaches the dispatch in arrival order, and the queue ends empty
    with one task marked done per message. *)
Lemma ticks_drain : forall evs g w q,
  queues w !! GlibT.receive_queue g = Some q ->
  items q = evs ->
  (length evs <= unfinished_tasks q)%nat ->
  exists g' w',
    ticks (length evs) (g, w) = Some (repeat true (length evs), (g', w'))
    /\ queues w' !! GlibT.receive_queue g
       = Some {| items := [];
                 unfinished_tasks := unfinished_tasks q - length evs |}
    /\ debug_log w' = debug_log w ++ evs
    /\ bus_signals w' = bus_signals w ++ omap emitted_by evs.
Proof.
  induction evs as [|m rest IH]; intros g w q Hq Hitems Hlen.
  - exists g, w. simpl. rewrite !app_nil_r, Nat.sub_0_r.
    repeat split. rewrite Hq. destruct q; simpl in *; now subst.
  - simpl in Hlen. destruct (unfinished_tasks q) as [|k] eqn:Hk; [lia|].
    pose proof (message_callback_cons g w q m rest k Hq Hitems Hk) as Hstep.
    destruct (IH (refreshed m g w)
                (after_tick (GlibT.receive_queue g) m rest k w)
                {| items := rest; unfinished_tasks := k |})
      as (g' & w' & Hrun & Hq' & Hlog & Hbus).
    { rewrite refreshed_receive_queue. simpl. apply lookup_insert_eq. }
    { reflexivity. }
    { simpl. lia. }
    exists g', w'. rewrite refreshed_receive_queue in Hq'.
    repeat split.
    + simpl. unfold mbind, ST_bind. rewrite Hstep.
      rewrite Hrun. reflexivity.
    + rewrite Hq'. reflexivity.
    + rewrite Hlog. simpl. now rewrite <- app_assoc.
    + rewrite Hbus. simpl. rewrite <- app_assoc.
      destruct (emitted_by m); reflexivity.
Qed.

(** The three verification events the dispatch knows are relayed as one
    signal each, with the fields of the event. *)
Lemma message_callback_relays g w q m rest :
  queues w !! GlibT.receive_queue g = Some q ->
  items q = m :: rest ->
  (length (items q) <= unfinished_tasks q)%nat ->
  (exists a b c d, m = InviteSasSignal a b c d)
  \/ (exists a b c d e, m = ShowSasSignal a b c d e)
  \/ (exists a b c d, m = SasDoneSignal a b c d) ->
  exists s g' w',
    notification_of m = Some s
    /\ GlibT.message_callback (g, w) = Some (true, (g', w'))
    /\ bus_signals w' = bus_signals w ++ [s].
Proof.
  intros Hq Hitems Hlen Hkind.
  rewrite Hitems in Hlen. simpl in Hlen.
  destruct (unfinished_tasks q) as [|k] eqn:Hk; [lia|].
  pose proof (message_callback_cons g w q m rest k Hq Hitems Hk) as Hstep.
  destruct Hkind as [(a & b & c & d & ->)|[(a & b & c & d & e & ->)
                                          |(a & b & c & d & ->)]];
    eexists _, _, _; (split; [reflexivity|]); (split; [exact Hstep|]);
    reflexivity.
Qed.

(** A command response is relayed as [Response] with its id, identity,
    code and message. *)
Example response_relayed :
  exists g' w',
    GlibT.message_callback
      (Samples.bridge, Samples.world [DaemonResponse 7 "alice" "ok" "exported"])
    = Some (true, (g', w'))
    /\ bus_signals w'
       = [Response 7 "alice" [("code", "ok"); ("message", "exported")]].
Proof.
  eexists _, _. split.
  - apply (message_callback_cons Samples.bridge
             (Samples.world [DaemonResponse 7 "alice" "ok" "exported"])
             {| items := [DaemonResponse 7 "alice" "ok" "exported"];
                unfinished_tasks := 1 |}
             (DaemonResponse 7 "alice" "ok" "exported") [] 0%nat); reflexivity.
  - reflexivity.
Qed.

(** A verification-cancelled event is taken from the queue and marked done,
    and no signal is emitted for it. *)
Lemma message_callback_cancelled g w q a b c d r k rest :
  queues w !! GlibT.receive_queue g = Some q ->
  items q = SasCancelledEvent a b c d r k :: rest ->
  (length (items q) <= unfinished_tasks q)%nat ->
  exists w',
    GlibT.message_callback (g, w) = Some (true, (g, w'))
    /\ bus_signals w' = bus_signals w
    /\ queues w' !! GlibT.receive_queue g
       = Some {| items := rest;
                 unfinished_tasks := Nat.pred (unfinished_tasks q) |}.
Proof.
  intros Hq Hitems Hlen.
  rewrite Hitems in Hlen. simpl in Hlen.
  destruct (unfinished_tasks q) as [|n] eqn:Hn; [lia|].
  eexists. split; [|split].
  - apply (message_callback_cons g w q _ rest n Hq Hitems Hn).
  - simpl. apply app_nil_r.
  - simpl. apply lookup_insert_eq.
Qed.

(** C1. Evaluation at a verification-cancelled event: the interface
    declares the signal [VerificationCancel] for it, yet the callback
    consumes the event, marks it done and emits no signal at all. *)
Theorem cancelled_event_not_relayed :
  notification_of Samples.cancelled
  = Some (VerificationCancel "alice" "bob" "DEV1" "txn1" "User cancelled" "m.user")
  /\ exists w',
      GlibT.message_callback (Samples.bridge, Samples.world [Samples.cancelled])
      = Some (true, (Samples.bridge, w'))
      /\ bus_signals w' = []
      /\ queues w' !! GlibT.receive_queue Samples.bridge
         = Some {| items := []; unfinished_tasks := 0 |}.
Proof.
  split; [reflexivity|].
  destruct (message_callback_cancelled Samples.bridge
              (Samples.world [Samples.cancelled])
              {| items := [Samples.cancelled]; unfinished_tasks := 1 |}
              "alice" "bob" "DEV1" "txn1" "User cancelled" "m.user" [])
    as (w' & Hrun & Hbus & Hq); [reflexivity|reflexivity|simpl; lia|].
  exists w'. repeat split; assumption.
Qed.
End DispatchProperties.

Section RawDispatchProperties.
Import Py Ui.

(** Either the dispatch returns, having changed nothing but the device
    cache and the signals sent, or it raises and the state is as before. *)
Lemma raw_dispatch_spec (message : Raw.object) (s : Raw.state) :
  if Raw.dispatchable (Raw.database s) message
  then exists s',
      Raw.dispatch message s = (Raw.Returned tt, s')
      /\ Raw.pending s' = Raw.pending s
      /\ Raw.unfinished s' = Raw.unfinished s
      /\ Raw.database s' = Raw.database s
      /\ Raw.logged s' = Raw.logged s
  else exists e, Raw.dispatch message s = (Raw.Raised e, s).
Proof.
  destruct message as [c attrs].
  unfold Raw.dispatchable, Raw.dispatch, Raw.holds, Raw.getattr,
    Raw.update_devices, Raw.VerificationInvite, Raw.VerificationString,
    Raw.VerificationDone, Raw.Response, Raw.pack_s, Raw.pack_i, Raw.pack_ass,
    Raw.is_int32, mbind, Raw.M_bind, mret, Raw.M_ret, Raw.throw.
  destruct c; simpl.
  2-5: repeat match goal with
         | |- context [dict_get ?a ?k] =>
             destruct (dict_get a k) as [[]|]; simpl;
             try (eexists; reflexivity)
         end;
       repeat match goal with
         | |- context [Z.leb ?a ?b] => destruct (Z.leb a b); simpl
         end;
       try (eexists; reflexivity);
       eexists; (split; [reflexivity|]); repeat split.
  - destruct (Raw.database s); [|eexists; reflexivity].
    eexists. split; [reflexivity|]. repeat split.
  - eexists. split; [reflexivity|]. repeat split.
Qed.

(** A pending event whose dispatch raises nothing is taken, logged,
    dispatched and marked done, and the callback returns [True]. *)
Lemma raw_message_callback_returns s message rest :
  Raw.pending s = message :: rest ->
  (length (Raw.pending s) <= Raw.unfinished s)%nat ->
  Raw.dispatchable (Raw.database s) message = true ->
  exists s',
    Raw.message_callback s = (Raw.Returned true, s')
    /\ Raw.pending s' = rest
    /\ Raw.unfinished s' = Nat.pred (Raw.unfinished s)
    /\ Raw.database s' = Raw.database s
    /\ Raw.logged s' = Raw.logged s ++ [message].
Proof.
  intros Hpending Hlen Hok. rewrite Hpending in Hlen. simpl in Hlen.
  unfold Raw.message_callback, mbind, Raw.M_bind, Raw.get_nowait,
    Raw.logger_debug.
  rewrite Hpending.
  cbn [Raw.pending Raw.unfinished Raw.cache Raw.database Raw.emitted
       Raw.logged].
  pose proof (raw_dispatch_spec message
                {| Raw.pending := rest; Raw.unfinished := Raw.unfinished s;
                   Raw.cache := Raw.cache s; Raw.database := Raw.database s;
                   Raw.emitted := Raw.emitted s;
                   Raw.logged := Raw.logged s ++ [message] |}) as Hd.
  simpl in Hd. rewrite Hok in Hd.
  destruct Hd as (s1 & -> & Hp & Hu & Hdb & Hl). simpl in Hp, Hu, Hdb, Hl.
  unfold Raw.task_done. rewrite Hu.
  destruct (Raw.unfinished s) as [|k]; [lia|].
  eexists. split; [reflexivity|]. simpl. repeat split; assumption.
Qed.

(** A pending event whose dispatch raises: the exception leaves the
    callback; the event is off the queue and in the log, and no task has
    been marked done. *)
Lemma raw_message_callback_raises s message rest :
  Raw.pending s = message :: rest ->
  Raw.dispatchable (Raw.database s) message = false ->
  exists e,
    Raw.message_callback s
    = (Raw.Raised e,
       {| Raw.pending := rest; Raw.unfinished := Raw.unfinished s;
          Raw.cache := Raw.cache s; Raw.database := Raw.database s;
          Raw.emitted := Raw.emitted s;
          Raw.logged := Raw.logged s ++ [message] |}).
Proof.
  intros Hpending Hbad.
  unfold Raw.message_callback, mbind, Raw.M_bind, Raw.get_nowait,
    Raw.logger_debug.
  rewrite Hpending.
  cbn [Raw.pending Raw.unfinished Raw.cache Raw.database Raw.emitted
       Raw.logged].
  pose proof (raw_dispatch_spec message
                {| Raw.pending := rest; Raw.unfinished := Raw.unfinished s;
                   Raw.cache := Raw.cache s; Raw.database := Raw.database s;
                   Raw.emitted := Raw.emitted s;
                   Raw.logged := Raw.logged s ++ [message] |}) as Hd.
  simpl in Hd. rewrite Hbad in Hd. destruct Hd as (e & ->).
  exists e. reflexivity.
Qed.

(** A queue of events none of whose dispatch raises is drained one run at
    a time, in order, every run returning [True]. *)
Lemma raw_ticks_drain : forall evs s,
  Raw.pending s = evs ->
  (length evs <= Raw.unfinished s)%nat ->
  forallb (Raw.dispatchable (Raw.database s)) evs = true ->
  exists s',
    Raw.ticks (length evs) s = (Raw.Returned (repeat true (length evs)), s')
    /\ Raw.pending s' = []
    /\ Raw.unfinished s' = (Raw.unfinished s - length evs)%nat
    /\ Raw.logged s' = Raw.logged s ++ evs.
Proof.
  induction evs as [|message rest IH]; intros s Hpending Hlen Hall.
  - exists s. simpl. rewrite app_nil_r, Nat.sub_0_r.
    repeat split. exact Hpending.
  - simpl in Hall. apply andb_prop in Hall as [Hok Hall]. simpl in Hlen.
    destruct (raw_message_callback_returns s message rest Hpending)
      as (s1 & Hstep & Hp & Hu & Hdb & Hl);
      [rewrite Hpending; simpl; lia|exact Hok|].
    destruct (IH s1 Hp) as (s' & Hrun & Hp' & Hu' & Hl').
    { rewrite Hu. lia. }
    { now rewrite Hdb. }
    exists s'. repeat split.
    + simpl. unfold mbind, Raw.M_bind. rewrite Hstep. fold Raw.ticks.
      rewrite Hrun. reflexivity.
    + exact Hp'.
    + rewrite Hu', Hu. simpl. lia.
    + rewrite Hl', Hl, <- app_assoc. reflexivity.
Qed.

(** On the messages of [Message] whose id fits the signal, the chain on
    queue objects does what [GlibT.dispatch] does. *)
Lemma object_of_dispatchable db m :
  Raw.fits_signal m = true ->
  Raw.dispatchable (Some db) (Raw.object_of m) = true.
Proof.
  destruct m; try reflexivity. intros H.
  change (Raw.is_int32 (Raw.PyInt message_id) = true) in H.
  unfold Raw.dispatchable, Raw.holds. cbn -[Raw.is_int32].
  rewrite H. reflexivity.
Qed.

Lemma raw_message_callback_simulates g w q m rest :
  queues w !! GlibT.receive_queue g = Some q ->
  items q = m :: rest ->
  (length (items q) <= unfinished_tasks q)%nat ->
  Raw.fits_signal m = true ->
  exists g' w' q',
    GlibT.message_callback (g, w) = Some (true, (g', w'))
    /\ queues w' !! GlibT.receive_queue g' = Some q'
    /\ Raw.message_callback (Raw.state_of g w q)
       = (Raw.Returned true, Raw.state_of g' w' q').
Proof.
  intros Hq Hitems Hlen Hfits. rewrite Hitems in Hlen. simpl in Hlen.
  destruct (unfinished_tasks q) as [|k] eqn:Hk; [lia|].
  exists (refreshed m g w), (after_tick (GlibT.receive_queue g) m rest k w),
    {| items := rest; unfinished_tasks := k |}.
  split; [now apply (message_callback_cons g w q m rest k)|].
  split; [rewrite refreshed_receive_queue; simpl; apply lookup_insert_eq|].
  unfold Raw.state_of, Raw.message_callback, mbind, Raw.M_bind, Raw.get_nowait,
    Raw.logger_debug.
  rewrite Hitems, Hk.
  cbn [map Raw.pending Raw.unfinished Raw.cache Raw.database Raw.emitted
       Raw.logged].
  destruct m;
    try (cbn; rewrite ?map_app, ?app_nil_r; reflexivity).
  change (Raw.is_int32 (Raw.PyInt message_id) = true) in Hfits.
  unfold Raw.is_int32 in Hfits.
  unfold Raw.dispatch, Raw.Response, Raw.getattr, Raw.pack_i, mbind,
    Raw.M_bind, mret, Raw.M_ret.
  cbn -[Z.leb]. rewrite Hfits. cbn. rewrite map_app. reflexivity.
Qed.

(** C8, amended. Of an event at the head of the queue: when its dispatch
    raises nothing, [message_callback] marks it done and returns [True], and
    that is so for every event of none of the classes the chain tests (no
    signal goes out for it). When the dispatch raises, as for an event to
    relay that lacks an attribute or holds one of another type than its
    signal declares, nothing catches the exception: it leaves
    [message_callback] with the event off the queue, no task marked done and
    no value returned. A queue of events whose dispatch raises nothing is
    drained in order, one event a run, every run returning [True]. *)
Theorem message_callback_consumes_unless_dispatch_raises
    (s : Raw.state) (message : Raw.object) (rest : list Raw.object) :
  Raw.pending s = message :: rest ->
  (length (Raw.pending s) <= Raw.unfinished s)%nat ->
  (Raw.dispatchable (Raw.database s) message = true ->
   exists s',
     Raw.message_callback s = (Raw.Returned true, s')
     /\ Raw.pending s' = rest
     /\ Raw.unfinished s' = Nat.pred (Raw.unfinished s)
     /\ Raw.logged s' = Raw.logged s ++ [message])
  /\ (forall class_name,
         Raw.class_of message = Raw.NoneOfThese class_name ->
         exists s',
           Raw.message_callback s = (Raw.Returned true, s')
           /\ Raw.pending s' = rest
           /\ Raw.unfinished s' = Nat.pred (Raw.unfinished s)
           /\ Raw.emitted s' = Raw.emitted s)
  /\ (Raw.dispatchable (Raw.database s) message = false ->
      exists e,
        Raw.message_callback s
        = (Raw.Raised e,
           {| Raw.pending := rest; Raw.unfinished := Raw.unfinished s;
              Raw.cache := Raw.cache s; Raw.database := Raw.database s;
              Raw.emitted := Raw.emitted s;
              Raw.logged := Raw.logged s ++ [message] |}))
  /\ (forallb (Raw.dispatchable (Raw.database s)) (Raw.pending s) = true ->
      exists s',
        Raw.ticks (length (Raw.pending s)) s
        = (Raw.Returned (repeat true (length (Raw.pending s))), s')
        /\ Raw.pending s' = []
        /\ Raw.unfinished s' = (Raw.unfinished s - length (Raw.pending s))%nat
        /\ Raw.logged s' = Raw.logged s ++ Raw.pending s).
Proof.
  intros Hpending Hlen. split; [|split; [|split]].
  - intros Hok.
    destruct (raw_message_callback_returns s message rest Hpending Hlen Hok)
      as (s' & Hstep & Hp & Hu & _ & Hl).
    exists s'. repeat split; assumption.
  - intros class_name Hclass.
    rewrite Hpending in Hlen. simpl in Hlen.
    destruct (Raw.unfinished s) as [|k] eqn:Hk; [lia|].
    unfold Raw.message_callback, mbind, Raw.M_bind, Raw.get_nowait,
      Raw.logger_debug, Raw.dispatch.
    rewrite Hpending, Hclass. simpl. unfold Raw.task_done. simpl. rewrite Hk.
    eexists. split; [reflexivity|]. repeat split.
  - now apply raw_message_callback_raises.
  - intros Hall. now apply raw_ticks_drain.
Qed.

Lemma message_callback_consumes_unless_dispatch_raises_witness :
  exists s',
    Raw.ticks 2
      (Samples.raw_state
         [Raw.object_of (OtherObject "object" []);
          Raw.object_of (InviteSasSignal "alice" "bob" "DEV1" "txn1")])
    = (Raw.Returned [true; true], s')
    /\ Raw.pending s' = []
    /\ Raw.unfinished s' = 0%nat.
Proof.
  destruct (message_callback_consumes_unless_dispatch_raises
              (Samples.raw_state
                 [Raw.object_of (OtherObject "object" []);
                  Raw.object_of (InviteSasSignal "alice" "bob" "DEV1" "txn1")])
              (Raw.object_of (OtherObject "object" []))
              [Raw.object_of (InviteSasSignal "alice" "bob" "DEV1" "txn1")])
    as (_ & _ & _ & Hticks).
  - reflexivity.
  - simpl. lia.
  - destruct Hticks as (s' & Hrun & Hp & Hu & _); [reflexivity|].
    exists s'. split; [exact Hrun|]. split; [exact Hp|exact Hu].
Defined.

(** A verification-invited event whose transaction id is [None], alone on
    the queue: the signal call raises [TypeError] and so does the callback;
    the event is off the queue, its task is not marked done and no signal
    went out. *)
Lemma message_callback_malformed_event_raises :
  Raw.message_callback (Samples.raw_state [Samples.invite_without_transaction])
  = (Raw.Raised Raw.TypeError,
     {| Raw.pending := []; Raw.unfinished := 1;
        Raw.cache := Some Samples.cache; Raw.database := Some Samples.cache;
        Raw.emitted := [];
        Raw.logged := [Samples.invite_without_transaction] |}).
Proof. reflexivity. Qed.

(** The same event with its transaction id is relayed, and one whose
    attribute is missing raises [AttributeError]; a device-list-changed
    event raises when the store cannot be read. *)
Example message_callback_other_events :
  Raw.message_callback
    (Samples.raw_state
       [Raw.object_of (InviteSasSignal "alice" "bob" "DEV1" "txn1")])
  = (Raw.Returned true,
     {| Raw.pending := []; Raw.unfinished := 0;
        Raw.cache := Some Samples.cache; Raw.database := Some Samples.cache;
        Raw.emitted := [VerificationInvite "alice" "bob" "DEV1" "txn1"];
        Raw.logged :=
          [Raw.object_of (InviteSasSignal "alice" "bob" "DEV1" "txn1")] |})
  /\ fst (Raw.message_callback
            (Samples.raw_state
               [{| Raw.class_of := Raw.IsSasDoneSignal;
                   Raw.attributes := [("pan_user", Raw.PyStr "alice")] |}]))
     = Raw.Raised (Raw.AttributeError "user_id")
  /\ fst (Raw.message_callback
            {| Raw.pending := [Raw.object_of UpdateDevicesMessage];
               Raw.unfinished := 1; Raw.cache := Some Samples.cache;
               Raw.database := None; Raw.emitted := []; Raw.logged := [] |})
     = Raw.Raised Raw.StoreError.
Proof. repeat split. Qed.
End RawDispatchProperties.

Section ListingProperties.
Import Py Ui.

(** C4. On a constructed [Devices] object, [List] returns without an error
    for every identity: the devices of all users cached for the identity,
    concatenated into one sequence in cache order, and the empty sequence
    when the identity is not in the cache or has no cached devices. *)
Theorem list_flattens_all_devices (self : Devices.t) (cache : DeviceCache)
    (pan_user : string) :
  Devices.device_list self = Some cache ->
  Devices.List self pan_user
  = Some match dict_get cache pan_user with
         | Some device_store => concat (map dict_values (dict_values device_store))
         | None => []
         end
  /\ (dict_get cache pan_user = None -> Devices.List self pan_user = Some [])
  /\ (forall device_store,
         dict_get cache pan_user = Some device_store ->
         (forall user_devices, user_devices ∈ dict_values device_store ->
                               user_devices = []) ->
         Devices.List self pan_user = Some []).
Proof.
  intros Hcache. unfold Devices.List. rewrite Hcache.
  split; [|split].
  - destruct (dict_get cache pan_user) as [[|entry device_store]|]; simpl;
      try reflexivity.
    f_equal. f_equal. apply flat_map_concat_map.
  - intros ->. reflexivity.
  - intros device_store -> Hempty.
    destruct device_store as [|entry device_store]; [reflexivity|].
    cbn [truthy_dict negb]. f_equal.
    rewrite flat_map_concat_map.
    induction (dict_values (entry :: device_store)) as [|d ds IH];
      [reflexivity|].
    simpl. rewrite (Hempty d) by apply list_elem_of_here.
    simpl. apply IH. intros u Hu. apply Hempty. now apply list_elem_of_further.
Qed.

Lemma list_flattens_all_devices_witness :
  Devices.List Samples.devices "alice" = Some [Samples.device1]
  /\ Devices.List Samples.devices "mallory" = Some [].
Proof.
  split.
  - apply (list_flattens_all_devices Samples.devices Samples.cache "alice").
    reflexivity.
  - apply (list_flattens_all_devices Samples.devices Samples.cache "mallory");
      reflexivity.
Defined.

(** C9. With the cache {"alice": {"bob": {"DEV1": device}}},
    [ListUserDevices("alice", "bob")] returns the one-element sequence made
    of that device and [ListUserDevices("alice", "carol")] returns the empty
    sequence; neither call raises. *)
Theorem list_user_devices_scenario (self : Devices.t) (device : Device) :
  Devices.device_list self = Some [("alice", [("bob", [("DEV1", device)])])] ->
  Devices.ListUserDevices self "alice" "bob" = Some [device]
  /\ Devices.ListUserDevices self "alice" "carol" = Some [].
Proof.
  intros Hcache. unfold Devices.ListUserDevices. rewrite Hcache.
  split; reflexivity.
Qed.

Lemma list_user_devices_scenario_witness :
  Devices.ListUserDevices Samples.devices "alice" "bob" = Some [Samples.device1]
  /\ Devices.ListUserDevices Samples.devices "alice" "carol" = Some [].
Proof.
  apply (list_user_devices_scenario Samples.devices Samples.device1).
  reflexivity.
Defined.
End ListingProperties.

Section BridgeProperties.
Import Py Ui.

Lemma set_device_if_same g : GlibT.set_device_if (GlibT.device_if g) g = g.
Proof. destruct g; reflexivity. Qed.

(** A command method of [Devices] returns its object as it was. *)
Lemma devices_send_self mk a b c d w r d' w' :
  Devices.send mk a b c (d, w) = Some (r, (d', w')) -> d' = d.
Proof.
  unfold Devices.send, mbind, ST_bind, self_of, on_world, return_message_id.
  simpl.
  destruct (Devices.message_id d w) as [[i w1]|]; [|discriminate]. simpl.
  destruct (PyQueue.put _ _ w1) as [[[] w2]|]; [|discriminate]. simpl.
  destruct (get_message_id _); [|discriminate].
  unfold mret, ST_ret. now intros [= _ <- _].
Qed.

(** Every call takes its id from the shared counter and appends one
    message to the command queue; the bridge object is as before. *)
Lemma invoke_spec call g w n :
  bridge_ok g w ->
  counters w !! Devices.id_counter (GlibT.device_if g) = Some n ->
  exists q m,
    queues w !! GlibT.send_queue g = Some q
    /\ invoke call (g, w)
       = Some (n, (g, after_command (Devices.id_counter (GlibT.device_if g))
                        (GlibT.send_queue g) n q m w)).
Proof.
  intros Hok Hn. destruct Hok as [Hshared _ Hcq Hdq [q Hq] _ _].
  exists q.
  destruct call as [a b c|a b c|a b c|a b c|a b c|a b c|a b c|a b c].
  1,2: eexists; split; [exact Hq|];
    unfold invoke, mbind, ST_bind, self_of, on_world; simpl;
    destruct (control_keys_spec (GlibT.control_if g) w n q a b c) as [He Hi];
      [now rewrite Hshared|now rewrite Hcq|];
    rewrite ?He, ?Hi, Hshared, Hcq; reflexivity.
  all: eexists; split; [exact Hq|];
    unfold invoke, GlibT.with_device_if, Devices.Verify, Devices.UnVerify,
      Devices.StartKeyVerification, Devices.CancelKeyVerification,
      Devices.AcceptKeyVerification, Devices.ConfirmKeyVerification; simpl;
    erewrite devices_send_spec;
      [rewrite set_device_if_same, Hdq; reflexivity
      |reflexivity|exact Hn|now rewrite Hdq].
Qed.

Lemma bridge_ok_after_command g w n q m :
  bridge_ok g w ->
  queues w !! GlibT.send_queue g = Some q ->
  bridge_ok g (after_command (Devices.id_counter (GlibT.device_if g))
                 (GlibT.send_queue g) n q m w).
Proof.
  intros [Hshared Hc Hcq Hdq Hsq (qr & Hqr & Hlen) Hdl] Hq.
  constructor; try assumption; simpl.
  - rewrite lookup_insert_eq. eauto.
  - rewrite lookup_insert_eq. eauto.
  - rewrite lookup_insert. case_decide as Heq.
    + eexists. split; [reflexivity|]. simpl.
      rewrite <- Heq, Hq in Hqr. injection Hqr as <-.
      rewrite length_app. simpl. lia.
    + exists qr. split; assumption.
Qed.

Lemma bridge_ok_after_tick g w q m rest k :
  bridge_ok g w ->
  queues w !! GlibT.receive_queue g = Some q ->
  items q = m :: rest ->
  unfinished_tasks q = S k ->
  bridge_ok (refreshed m g w) (after_tick (GlibT.receive_queue g) m rest k w).
Proof.
  intros [Hshared Hc Hcq Hdq Hsq (qr & Hqr & Hlen) Hdl] Hq Hitems Hk.
  rewrite Hq in Hqr. injection Hqr as <-.
  rewrite Hitems, Hk in Hlen. simpl in Hlen.
  assert (is_Some (queues (after_tick (GlibT.receive_queue g) m rest k w)
                     !! GlibT.send_queue g)) as Hsq'.
  { simpl. rewrite lookup_insert. case_decide; eauto. }
  assert (exists q', queues (after_tick (GlibT.receive_queue g) m rest k w)
                       !! GlibT.receive_queue g = Some q'
                     /\ (length (items q') <= unfinished_tasks q')%nat) as Hrq'.
  { simpl. rewrite lookup_insert_eq. eexists. split; [reflexivity|]. simpl. lia. }
  destruct m; constructor; try assumption; simpl; eauto.
Qed.

(** One step from a state in which the bridge can run: it completes, the
    bridge can still run, a call returns the counter's value and advances
    it by one, a run of the callback leaves the counter alone. *)
Lemma step_spec st g w n :
  bridge_ok g w ->
  counters w !! Devices.id_counter (GlibT.device_if g) = Some n ->
  exists r g' w',
    step st (g, w) = Some (r, (g', w'))
    /\ bridge_ok g' w'
    /\ Devices.id_counter (GlibT.device_if g')
       = Devices.id_counter (GlibT.device_if g)
    /\ match st with
       | Invoke _ =>
           r = Some n
           /\ counters w' !! Devices.id_counter (GlibT.device_if g) = Some (n + 1)
       | Tick =>
           r = None
           /\ counters w' !! Devices.id_counter (GlibT.device_if g) = Some n
       end.
Proof.
  intros Hok Hn. destruct st as [call|].
  - destruct (invoke_spec call g w n Hok Hn) as (q & m & Hq & Hrun).
    eexists _, _, _. unfold step, mbind, ST_bind. rewrite Hrun.
    split; [reflexivity|]. split; [now apply bridge_ok_after_command|].
    split; [reflexivity|]. split; [reflexivity|].
    simpl. apply lookup_insert_eq.
  - destruct (ok_receive_queue _ _ Hok) as (q & Hq & Hlen).
    unfold step, mbind, ST_bind.
    destruct (items q) as [|m rest] eqn:Hitems.
    + rewrite (message_callback_empty g w q Hq Hitems).
      eexists _, _, _. split; [reflexivity|]. split; [exact Hok|].
      split; [reflexivity|]. split; [reflexivity|exact Hn].
    + simpl in Hlen. destruct (unfinished_tasks q) as [|k] eqn:Hk; [lia|].
      rewrite (message_callback_cons g w q m rest k Hq Hitems Hk).
      eexists _, _, _. split; [reflexivity|].
      split; [now apply (bridge_ok_after_tick g w q)|].
      split; [destruct m; reflexivity|]. split; [reflexivity|exact Hn].
Qed.

(** Along any run the ids returned are the consecutive values of the
    counter, starting from the value it had. *)
Lemma run_ids : forall steps g w n,
  bridge_ok g w ->
  counters w !! Devices.id_counter (GlibT.device_if g) = Some n ->
  exists ids g' w',
    run steps (g, w) = Some (ids, (g', w'))
    /\ bridge_ok g' w'
    /\ Devices.id_counter (GlibT.device_if g')
       = Devices.id_counter (GlibT.device_if g)
    /\ length ids = count_invokes steps
    /\ ids = seqZ n (Z.of_nat (length ids))
    /\ counters w' !! Devices.id_counter (GlibT.device_if g)
       = Some (n + Z.of_nat (length ids)).
Proof.
  induction steps as [|st rest IH]; intros g w n Hok Hn.
  - exists [], g, w. simpl. rewrite Z.add_0_r.
    split; [reflexivity|]. split; [exact Hok|]. split; [reflexivity|].
    split; [reflexivity|]. split; [reflexivity|exact Hn].
  - destruct (step_spec st g w n Hok Hn) as (r & g1 & w1 & Hstep & Hok1 & Hc1 & Hr).
    simpl. unfold mbind, ST_bind. rewrite Hstep.
    destruct st as [call|]; destruct Hr as [-> Hn1]; rewrite <- Hc1 in Hn1.
    + destruct (IH g1 w1 (n + 1) Hok1 Hn1)
        as (ids & g' & w' & Hrun & Hok' & Hc' & Hcount & Hids & Hn').
      rewrite Hrun. exists (n :: ids), g', w'.
      split; [reflexivity|]. split; [assumption|].
      split; [congruence|]. split; [simpl; now rewrite Hcount|]. split.
      * rewrite Hids at 1. rewrite length_cons, Nat2Z.inj_succ.
        rewrite (seqZ_cons n) by lia. rewrite Z.pred_succ.
        replace (Z.succ n) with (n + 1) by lia. reflexivity.
      * rewrite <- Hc1, Hn'. f_equal. rewrite length_cons. lia.
    + destruct (IH g1 w1 n Hok1 Hn1)
        as (ids & g' & w' & Hrun & Hok' & Hc' & Hcount & Hids & Hn').
      rewrite Hrun. exists ids, g', w'.
      split; [reflexivity|]. split; [assumption|].
      split; [congruence|]. split; [exact Hcount|]. split; [assumption|].
      rewrite <- Hc1. exact Hn'.
Qed.

(** Start-up leaves a state in which the bridge can run, with the shared
    counter at 0 and the cache loaded from the store. *)
Lemma boot_ok data_dir w0 :
  exists g w,
    boot data_dir w0 = Some (g, w)
    /\ bridge_ok g w
    /\ counters w !! Devices.id_counter (GlibT.device_if g) = Some 0
    /\ Devices.device_list (GlibT.device_if g) = Some (db_devices w0).
Proof.
  unfold boot, GlibT.__attrs_post_init__, Devices.__init__,
    Devices.update_devices, IdCounter.__init__, PyQueue.__init__,
    PanStore.load_all_users, PanStore.load_all_devices, mbind, mret, ST_bind,
    ST_ret, on_world, on_self, self_of, modify.
  simpl. eexists _, _. split; [reflexivity|]. simpl.
  split; [|split; [apply lookup_insert_eq|reflexivity]].
  constructor; simpl; try reflexivity; eauto.
  - rewrite lookup_insert_eq. eauto.
  - rewrite lookup_insert_eq. eauto.
  - eexists. split.
    + rewrite lookup_insert_ne; [apply lookup_insert_eq|].
      intros Heq.
      apply (is_fresh (dom (<[fresh (dom (queues w0)) :=
                               {| items := []; unfinished_tasks := 0 |}]>
                             (queues w0)))).
      rewrite Heq. apply elem_of_dom. rewrite lookup_insert_eq. eauto.
    + simpl. lia.
Qed.

(** C2. From any state in which the bridge can run, with both surfaces on
    one counter, every sequence of calls of the command methods of the two
    surfaces (with any runs of the periodic callback in between) completes
    and returns one id per call; in issuance order these ids are the
    consecutive values of the counter, so they are strictly increasing and
    pairwise distinct, and the counter is left above all of them. *)
Theorem correlation_ids_strictly_increasing (g : GlibT.t) (w : World) (n : Z)
    (steps : list Step) :
  bridge_ok g w ->
  counters w !! Devices.id_counter (GlibT.device_if g) = Some n ->
  exists ids g' w',
    run steps (g, w) = Some (ids, (g', w'))
    /\ length ids = count_invokes steps
    /\ (forall i j x y, ids !! i = Some x -> ids !! j = Some y ->
                        (i < j)%nat -> x < y)
    /\ NoDup ids
    /\ (forall x, x ∈ ids -> n <= x)
    /\ (exists next,
           counters w' !! Control.id_counter (GlibT.control_if g') = Some next
           /\ counters w' !! Devices.id_counter (GlibT.device_if g') = Some next
           /\ forall x, x ∈ ids -> x < next).
Proof.
  intros Hok Hn.
  destruct (run_ids steps g w n Hok Hn)
    as (ids & g' & w' & Hrun & Hok' & Hc' & Hcount & Hids & Hn').
  exists ids, g', w'. split; [exact Hrun|]. split; [exact Hcount|].
  split; [|split; [|split]].
  - intros i j x y Hi Hj Hlt. rewrite Hids in Hi, Hj.
    apply lookup_seqZ in Hi as [-> _]. apply lookup_seqZ in Hj as [-> _]. lia.
  - rewrite Hids. apply NoDup_seqZ.
  - intros x Hx. rewrite Hids in Hx. apply elem_of_seqZ in Hx. lia.
  - exists (n + Z.of_nat (length ids)).
    rewrite (ok_counter_shared _ _ Hok'), Hc'.
    split; [exact Hn'|]. split; [exact Hn'|].
    intros x Hx. rewrite Hids in Hx. apply elem_of_seqZ in Hx. lia.
Qed.

Lemma samples_bridge_ok events : bridge_ok Samples.bridge (Samples.world events).
Proof. constructor; simpl; try reflexivity; eauto. Qed.

Lemma correlation_ids_witness :
  exists ids g' w',
    run [Invoke (CallExportKeys "alice" "/tmp/k.txt" "pw"); Tick;
         Invoke (CallVerify "alice" "bob" "DEV1");
         Invoke (CallImportKeys "alice" "/tmp/k.txt" "pw")]
      (Samples.bridge, Samples.world [UpdateDevicesMessage])
    = Some (ids, (g', w'))
    /\ length ids = 3%nat
    /\ NoDup ids.
Proof.
  destruct (correlation_ids_strictly_increasing Samples.bridge
              (Samples.world [UpdateDevicesMessage]) 0
              [Invoke (CallExportKeys "alice" "/tmp/k.txt" "pw"); Tick;
               Invoke (CallVerify "alice" "bob" "DEV1");
               Invoke (CallImportKeys "alice" "/tmp/k.txt" "pw")])
    as (ids & g' & w' & Hrun & Hlen & _ & Hnodup & _).
  - apply samples_bridge_ok.
  - reflexivity.
  - exists ids, g', w'. repeat split; assumption.
Defined.

(** What a completed run of the callback did. *)
Lemma message_callback_inv g w b g' w' :
  GlibT.message_callback (g, w) = Some (b, (g', w')) ->
  exists q,
    queues w !! GlibT.receive_queue g = Some q
    /\ ((items q = [] /\ g' = g /\ w' = w)
        \/ exists m rest k,
             items q = m :: rest /\ unfinished_tasks q = S k
             /\ g' = refreshed m g w
             /\ w' = after_tick (GlibT.receive_queue g) m rest k w).
Proof.
  intros Hrun.
  destruct (queues w !! GlibT.receive_queue g) as [q|] eqn:Hq.
  - exists q. split; [reflexivity|].
    destruct (items q) as [|m rest] eqn:Hitems.
    + rewrite (message_callback_empty g w q Hq Hitems) in Hrun.
      injection Hrun as _ <- <-. now left.
    + destruct (unfinished_tasks q) as [|k] eqn:Hk.
      * exfalso. revert Hrun.
        unfold GlibT.message_callback, mbind, ST_bind, self_of, on_world,
          PyQueue.get_nowait. simpl.
        rewrite Hq, Hitems. simpl. rewrite dispatch_spec. simpl.
        unfold PyQueue.task_done.
        destruct (emitted_by m); simpl; rewrite lookup_insert_eq; simpl;
          rewrite Hk; discriminate.
      * rewrite (message_callback_cons g w q m rest k Hq Hitems Hk) in Hrun.
        injection Hrun as _ <- <-. right. now exists m, rest, k.
  - exfalso. revert Hrun.
    unfold GlibT.message_callback, mbind, ST_bind, self_of, on_world,
      PyQueue.get_nowait. simpl.
    rewrite Hq. discriminate.
Qed.

(** The cache after a step is the cache before it, unless the step is a
    run of the callback on a device-list-changed message, which replaces
    the cache by the store's snapshot. *)
Lemma step_device_list st g w r g' w' :
  step st (g, w) = Some (r, (g', w')) ->
  Devices.device_list (GlibT.device_if g')
  = Devices.device_list (GlibT.device_if g)
  \/ (st = Tick
      /\ (exists q rest,
             queues w !! GlibT.receive_queue g = Some q
             /\ items q = UpdateDevicesMessage :: rest)
      /\ Devices.device_list (GlibT.device_if g') = Some (db_devices w)).
Proof.
  destruct st as [call|]; unfold step, mbind, ST_bind.
  - destruct (invoke call (g, w)) as [[i [g1 w1]]|] eqn:Hcall; [|discriminate].
    unfold mret, ST_ret. intros [= _ <- _]. left.
    destruct call; unfold invoke in Hcall.
    1,2: unfold mbind, ST_bind, self_of, on_world in Hcall; simpl in Hcall;
      match type of Hcall with
      | context [match ?x with _ => _ end] => destruct x as [[? ?]|]
      end; [now injection Hcall as _ <- _|discriminate].
    all: unfold GlibT.with_device_if in Hcall; simpl in Hcall;
      match type of Hcall with
      | context [match ?x with _ => _ end] =>
          destruct x as [[? [d1 ?]]|] eqn:Hsend
      end; [|discriminate];
      apply devices_send_self in Hsend; subst d1;
      now injection Hcall as _ <- _.
  - destruct (GlibT.message_callback (g, w)) as [[b [g1 w1]]|] eqn:Hcb;
      [|discriminate].
    unfold mret, ST_ret. intros [= _ <- _].
    apply message_callback_inv in Hcb
      as (q & Hq & [(_ & -> & _)|(m & rest & k & Hitems & _ & -> & _)]).
    + now left.
    + destruct m; try (now left).
      right. split; [reflexivity|]. split; [|reflexivity]. eauto.
Qed.

Lemma devices_init_loads queue store id_counter w :
  exists d,
    Devices.__init__ queue store id_counter w = Some (d, w)
    /\ Devices.device_list d = Some (db_devices w).
Proof. eexists. split; reflexivity. Qed.

(** C7. [Verify] and [UnVerify] complete, return the next id and leave the
    [Devices] object, its [device_list] included, and the store as they
    were. No step of the bridge changes [device_list] except a run of the
    callback on a device-list-changed message, which replaces it by the
    store's snapshot, as the constructor does. *)
Theorem verify_unverify_leave_device_list (d : Devices.t) (w : World) (n : Z)
    (q : Queue) (pan_user user_id device_id : string) :
  counters w !! Devices.id_counter d = Some n ->
  queues w !! Devices.queue d = Some q ->
  (exists w',
      Devices.Verify pan_user user_id device_id (d, w) = Some (n, (d, w'))
      /\ db_devices w' = db_devices w)
  /\ (exists w',
         Devices.UnVerify pan_user user_id device_id (d, w) = Some (n, (d, w'))
         /\ db_devices w' = db_devices w)
  /\ (forall st g w0 r g' w',
         step st (g, w0) = Some (r, (g', w')) ->
         Devices.device_list (GlibT.device_if g')
         = Devices.device_list (GlibT.device_if g)
         \/ (st = Tick
             /\ (exists q0 rest,
                    queues w0 !! GlibT.receive_queue g = Some q0
                    /\ items q0 = UpdateDevicesMessage :: rest)
             /\ Devices.device_list (GlibT.device_if g') = Some (db_devices w0)))
  /\ (forall queue store id_counter w0,
         exists d0,
           Devices.__init__ queue store id_counter w0 = Some (d0, w0)
           /\ Devices.device_list d0 = Some (db_devices w0)).
Proof.
  intros Hn Hq. split; [|split; [|split]].
  - eexists. split;
      [unfold Devices.Verify; now apply (devices_send_spec _ d w n q)
      |reflexivity].
  - eexists. split;
      [unfold Devices.UnVerify; now apply (devices_send_spec _ d w n q)
      |reflexivity].
  - apply step_device_list.
  - apply devices_init_loads.
Qed.

Lemma verify_unverify_witness :
  exists w',
    Devices.Verify "alice" "bob" "DEV1" (Samples.devices, Samples.world [])
    = Some (0, (Samples.devices, w'))
    /\ db_devices w' = Samples.cache.
Proof.
  apply (verify_unverify_leave_device_list Samples.devices (Samples.world []) 0
           {| items := []; unfinished_tasks := 0 |} "alice" "bob" "DEV1");
    reflexivity.
Defined.
End BridgeProperties.

(** * Further properties of [ui.py] *)

Section ListingMoreProperties.
Import Py Ui.

Lemma list_spec (self : Devices.t) cache pan_user :
  Devices.device_list self = Some cache ->
  Devices.List self pan_user = Some (devices_of cache pan_user).
Proof.
  intros Hcache. unfold Devices.List, devices_of. rewrite Hcache.
  destruct (dict_get cache pan_user) as [[|entry device_store]|]; simpl;
    try reflexivity.
  f_equal. f_equal. apply flat_map_concat_map.
Qed.

Lemma list_user_devices_spec (self : Devices.t) cache pan_user user_id :
  Devices.device_list self = Some cache ->
  Devices.ListUserDevices self pan_user user_id
  = Some (user_devices_of cache pan_user user_id).
Proof.
  intros Hcache. unfold Devices.ListUserDevices, user_devices_of.
  rewrite Hcache.
  destruct (dict_get cache pan_user) as [[|entry device_store]|];
    cbn [truthy_dict negb]; try reflexivity.
  destruct (dict_get (entry :: device_store) user_id) as [[|device devices]|];
    reflexivity.
Qed.

Lemma dict_get_values {V} (d : dict V) k v :
  dict_get d k = Some v -> v ∈ dict_values d.
Proof.
  induction d as [|[k' v'] d IH]; simpl; [discriminate|].
  destruct (String.eqb k' k).
  - intros [= ->]. apply list_elem_of_here.
  - intros H. apply list_elem_of_further. exact (IH H).
Qed.

(** [ListUserDevices] returns the devices cached for the one user, none for
    an unknown identity or user, and every device it returns is among those
    [List] returns for the identity. *)
Theorem list_user_devices_within_list (self : Devices.t) (cache : DeviceCache)
    (pan_user user_id : string) :
  Devices.device_list self = Some cache ->
  exists all_devices user_devices,
    Devices.List self pan_user = Some all_devices
    /\ Devices.ListUserDevices self pan_user user_id = Some user_devices
    /\ user_devices = user_devices_of cache pan_user user_id
    /\ forall device, device ∈ user_devices -> device ∈ all_devices.
Proof.
  intros Hcache.
  exists (devices_of cache pan_user), (user_devices_of cache pan_user user_id).
  split; [now apply list_spec|]. split; [now apply list_user_devices_spec|].
  split; [reflexivity|].
  unfold devices_of, user_devices_of. intros device Hin.
  destruct (dict_get cache pan_user) as [device_store|]; [|inversion Hin].
  destruct (dict_get device_store user_id) as [device_list|] eqn:Huser;
    [|inversion Hin].
  apply list_elem_of_In, in_concat. exists (dict_values device_list).
  split; [|now apply list_elem_of_In].
  apply in_map, list_elem_of_In. now apply (dict_get_values _ user_id).
Qed.

Lemma list_user_devices_within_list_witness :
  exists all_devices user_devices,
    Devices.List Samples.devices "alice" = Some all_devices
    /\ Devices.ListUserDevices Samples.devices "alice" "bob" = Some user_devices
    /\ user_devices = user_devices_of Samples.cache "alice" "bob"
    /\ forall device, device ∈ user_devices -> device ∈ all_devices.
Proof.
  apply (list_user_devices_within_list Samples.devices Samples.cache "alice" "bob").
  reflexivity.
Defined.
End ListingMoreProperties.

Section BridgeMoreProperties.
Import Py Ui.

(** A call enqueues the message of its kind with the counter's value. *)
Lemma invoke_command call g w n :
  bridge_ok g w ->
  counters w !! Devices.id_counter (GlibT.device_if g) = Some n ->
  exists q,
    queues w !! GlibT.send_queue g = Some q
    /\ invoke call (g, w)
       = Some (n, (g, after_command (Devices.id_counter (GlibT.device_if g))
                        (GlibT.send_queue g) n q (command_of call n) w)).
Proof.
  intros Hok Hn. destruct Hok as [Hshared _ Hcq Hdq [q Hq] _ _].
  exists q. split; [exact Hq|].
  destruct call as [a b c|a b c|a b c|a b c|a b c|a b c|a b c|a b c].
  1,2: unfold invoke, mbind, ST_bind, self_of, on_world; simpl;
    destruct (control_keys_spec (GlibT.control_if g) w n q a b c) as [He Hi];
      [now rewrite Hshared|now rewrite Hcq|];
    rewrite ?He, ?Hi, Hshared, Hcq; reflexivity.
  all: unfold invoke, GlibT.with_device_if, Devices.Verify, Devices.UnVerify,
      Devices.StartKeyVerification, Devices.CancelKeyVerification,
      Devices.AcceptKeyVerification, Devices.ConfirmKeyVerification; simpl;
    erewrite devices_send_spec;
      [rewrite set_device_if_same, Hdq; reflexivity
      |reflexivity|exact Hn|now rewrite Hdq].
Qed.

(** What one step does, in full. *)
Lemma step_effects st g w n :
  bridge_ok g w ->
  counters w !! Devices.id_counter (GlibT.device_if g) = Some n ->
  exists r g' w',
    step st (g, w) = Some (r, (g', w'))
    /\ bridge_ok g' w'
    /\ match st with
       | Invoke call =>
           r = Some n /\ g' = g
           /\ exists q,
               queues w !! GlibT.send_queue g = Some q
               /\ w' = after_command (Devices.id_counter (GlibT.device_if g))
                         (GlibT.send_queue g) n q (command_of call n) w
       | Tick =>
           r = None
           /\ exists q,
               queues w !! GlibT.receive_queue g = Some q
               /\ ((items q = [] /\ g' = g /\ w' = w)
                   \/ exists m rest k,
                        items q = m :: rest /\ unfinished_tasks q = S k
                        /\ g' = refreshed m g w
                        /\ w' = after_tick (GlibT.receive_queue g) m rest k w)
       end.
Proof.
  intros Hok Hn. destruct st as [call|].
  - destruct (invoke_command call g w n Hok Hn) as (q & Hq & Hrun).
    eexists _, _, _. unfold step, mbind, ST_bind. rewrite Hrun.
    split; [reflexivity|]. split; [now apply bridge_ok_after_command|].
    split; [reflexivity|]. split; [reflexivity|]. eauto.
  - destruct (ok_receive_queue _ _ Hok) as (q & Hq & Hlen).
    unfold step, mbind, ST_bind.
    destruct (items q) as [|m rest] eqn:Hitems.
    + rewrite (message_callback_empty g w q Hq Hitems).
      eexists _, _, _. split; [reflexivity|]. split; [exact Hok|].
      split; [reflexivity|]. exists q. split; [exact Hq|]. now left.
    + simpl in Hlen. destruct (unfinished_tasks q) as [|k] eqn:Hk; [lia|].
      rewrite (message_callback_cons g w q m rest k Hq Hitems Hk).
      eexists _, _, _. split; [reflexivity|].
      split; [now apply (bridge_ok_after_tick g w q)|].
      split; [reflexivity|]. exists q. split; [exact Hq|].
      right. now exists m, rest, k.
Qed.

Lemma refreshed_fields m g w :
  GlibT.control_if (refreshed m g w) = GlibT.control_if g
  /\ GlibT.users (refreshed m g w) = GlibT.users g
  /\ GlibT.send_queue (refreshed m g w) = GlibT.send_queue g
  /\ GlibT.receive_queue (refreshed m g w) = GlibT.receive_queue g
  /\ Devices.id_counter (GlibT.device_if (refreshed m g w))
     = Devices.id_counter (GlibT.device_if g).
Proof. destruct m; repeat split. Qed.

Lemma get_message_id_command_of call i :
  get_message_id (command_of call i) = Some i.
Proof. destruct call; reflexivity. Qed.

Lemma calls_of_length steps : length (calls_of steps) = count_invokes steps.
Proof.
  induction steps as [|[call|] rest IH]; simpl; [reflexivity|now f_equal|exact IH].
Qed.

Lemma command_ids : forall calls ids,
  length calls = length ids ->
  omap get_message_id (zip_with command_of calls ids) = ids.
Proof.
  induction calls as [|call calls IH]; intros [|i ids] Hlen;
    try discriminate; [reflexivity|].
  simpl. rewrite get_message_id_command_of. f_equal. apply IH.
  now injection Hlen.
Qed.

(** The command queue along a run, when the two queues are different
    objects. *)
Lemma run_commands : forall steps g w n q,
  bridge_ok g w ->
  counters w !! Devices.id_counter (GlibT.device_if g) = Some n ->
  queues w !! GlibT.send_queue g = Some q ->
  GlibT.receive_queue g <> GlibT.send_queue g ->
  exists ids g' w',
    run steps (g, w) = Some (ids, (g', w'))
    /\ length ids = count_invokes steps
    /\ queues w' !! GlibT.send_queue g
       = Some {| items := items q ++ zip_with command_of (calls_of steps) ids;
                 unfinished_tasks := unfinished_tasks q + length ids |}.
Proof.
  induction steps as [|st rest IH]; intros g w n q Hok Hn Hq Hne.
  - exists [], g, w. simpl. rewrite app_nil_r, Nat.add_0_r.
    split; [reflexivity|]. split; [reflexivity|]. rewrite Hq. now destruct q.
  - destruct (step_effects st g w n Hok Hn) as (r & g1 & w1 & Hstep & Hok1 & Hr).
    simpl. unfold mbind, ST_bind. rewrite Hstep.
    destruct st as [call|].
    + destruct Hr as (-> & -> & q0 & Hq0 & ->).
      rewrite Hq in Hq0. injection Hq0 as <-.
      destruct (IH g _ (n + 1)
                  {| items := items q ++ [command_of call n];
                     unfinished_tasks := S (unfinished_tasks q) |}
                  Hok1)
        as (ids & g' & w' & Hrun & Hcount & Hsend); [| |assumption|].
      { simpl. apply lookup_insert_eq. }
      { simpl. apply lookup_insert_eq. }
      rewrite Hrun. exists (n :: ids), g', w'.
      split; [reflexivity|]. split; [simpl; now rewrite Hcount|].
      rewrite Hsend. simpl. rewrite <- app_assoc. simpl.
      do 2 f_equal. lia.
    + destruct Hr as (-> & qr & Hqr & Hcase).
      assert (exists g2 w2,
                 g1 = g2 /\ w1 = w2
                 /\ GlibT.send_queue g2 = GlibT.send_queue g
                 /\ GlibT.receive_queue g2 = GlibT.receive_queue g
                 /\ Devices.id_counter (GlibT.device_if g2)
                    = Devices.id_counter (GlibT.device_if g)
                 /\ counters w2 = counters w
                 /\ queues w2 !! GlibT.send_queue g = Some q)
        as (g2 & w2 & -> & -> & Hs & Hrq & Hc & Hcs & Hq2).
      { destruct Hcase as [(_ & -> & ->)|(m & tl & k & _ & _ & -> & ->)].
        - exists g, w. repeat split; assumption.
        - eexists _, _. split; [reflexivity|]. split; [reflexivity|].
          destruct (refreshed_fields m g w) as (_ & _ & Hs & Hrq & Hc).
          repeat split; try assumption.
          simpl. rewrite lookup_insert_ne by exact Hne. exact Hq. }
      destruct (IH g2 w2 n q Hok1) as (ids & g' & w' & Hrun & Hcount & Hsend).
      { now rewrite Hc, Hcs. }
      { now rewrite Hs. }
      { now rewrite Hs, Hrq. }
      rewrite Hrun. exists ids, g', w'.
      split; [reflexivity|]. split; [exact Hcount|].
      rewrite <- Hs. exact Hsend.
Qed.

(** The command queue is first-in first-out storage of the calls made: a
    run appends one message per call, in call order, each of the kind of
    its call and holding the id the call returned; runs of the callback in
    between leave the command queue alone. *)
Theorem command_queue_records_calls (g : GlibT.t) (w : World) (n : Z)
    (q : Queue) (steps : list Step) :
  bridge_ok g w ->
  counters w !! Devices.id_counter (GlibT.device_if g) = Some n ->
  queues w !! GlibT.send_queue g = Some q ->
  GlibT.receive_queue g <> GlibT.send_queue g ->
  exists ids g' w' added,
    run steps (g, w) = Some (ids, (g', w'))
    /\ queues w' !! GlibT.send_queue g
       = Some {| items := items q ++ added;
                 unfinished_tasks := unfinished_tasks q + length ids |}
    /\ added = zip_with command_of (calls_of steps) ids
    /\ omap get_message_id added = ids
    /\ length added = length (calls_of steps).
Proof.
  intros Hok Hn Hq Hne.
  destruct (run_commands steps g w n q Hok Hn Hq Hne)
    as (ids & g' & w' & Hrun & Hcount & Hsend).
  exists ids, g', w', (zip_with command_of (calls_of steps) ids).
  assert (length (calls_of steps) = length ids) as Hlen
    by now rewrite calls_of_length.
  split; [exact Hrun|]. split; [exact Hsend|]. split; [reflexivity|].
  split; [now apply command_ids|].
  rewrite length_zip_with. lia.
Qed.

Lemma command_queue_records_calls_witness :
  exists ids g' w' added,
    run [Invoke (CallStartKeyVerification "alice" "bob" "DEV1"); Tick;
         Invoke (CallConfirmKeyVerification "alice" "bob" "DEV1")]
      (Samples.bridge, Samples.world [UpdateUsersMessage])
    = Some (ids, (g', w'))
    /\ queues w' !! 2%positive
       = Some {| items := [] ++ added; unfinished_tasks := 0 + length ids |}
    /\ added = zip_with command_of
                 [CallStartKeyVerification "alice" "bob" "DEV1";
                  CallConfirmKeyVerification "alice" "bob" "DEV1"] ids
    /\ omap get_message_id added = ids
    /\ length added = 2%nat.
Proof.
  apply (command_queue_records_calls Samples.bridge
           (Samples.world [UpdateUsersMessage]) 0
           {| items := []; unfinished_tasks := 0 |}
           [Invoke (CallStartKeyVerification "alice" "bob" "DEV1"); Tick;
            Invoke (CallConfirmKeyVerification "alice" "bob" "DEV1")]).
  - apply samples_bridge_ok.
  - reflexivity.
  - reflexivity.
  - discriminate.
Defined.

(** What a run leaves alone and what it sends out. *)
Lemma run_invariants : forall steps g w,
  bridge_ok g w ->
  exists ids g' w' consumed,
    run steps (g, w) = Some (ids, (g', w'))
    /\ bridge_ok g' w'
    /\ GlibT.control_if g' = GlibT.control_if g
    /\ GlibT.users g' = GlibT.users g
    /\ debug_log w' = debug_log w ++ consumed
    /\ bus_signals w' = bus_signals w ++ omap emitted_by consumed
    /\ (length consumed + count_invokes steps <= length steps)%nat.
Proof.
  induction steps as [|st rest IH]; intros g w Hok.
  - exists [], g, w, []. simpl. rewrite !app_nil_r.
    split; [reflexivity|]. split; [exact Hok|].
    repeat (split; [reflexivity|]). lia.
  - destruct (ok_counter _ _ Hok) as [n Hn].
    destruct (step_effects st g w n Hok Hn) as (r & g1 & w1 & Hstep & Hok1 & Hr).
    destruct (IH g1 w1 Hok1)
      as (ids & g' & w' & consumed & Hrun & Hok' & Hc & Hu & Hlog & Hbus & Hlen).
    simpl. unfold mbind, ST_bind. rewrite Hstep, Hrun.
    destruct st as [call|].
    + destruct Hr as (-> & -> & q & _ & ->).
      exists (n :: ids), g', w', consumed.
      split; [reflexivity|]. split; [exact Hok'|].
      split; [exact Hc|]. split; [exact Hu|].
      split; [exact Hlog|]. split; [exact Hbus|]. simpl. lia.
    + destruct Hr as (-> & q & _ & [(_ & -> & ->)|(m & tl & k & _ & _ & -> & ->)]).
      * exists ids, g', w', consumed.
        split; [reflexivity|]. split; [exact Hok'|].
        split; [exact Hc|]. split; [exact Hu|].
        split; [exact Hlog|]. split; [exact Hbus|]. simpl. lia.
      * destruct (refreshed_fields m g w) as (Hc1 & Hu1 & _).
        exists ids, g', w', (m :: consumed).
        split; [reflexivity|]. split; [exact Hok'|].
        split; [congruence|]. split; [congruence|].
        split; [rewrite Hlog; simpl; now rewrite <- app_assoc|].
        split; [|simpl; lia].
        rewrite Hbus. simpl. rewrite <- app_assoc.
        destruct (emitted_by m); reflexivity.
Qed.

(** The control surface is fixed at construction: along any run the
    [Control] object, and with it the identities [ListUsers] returns, stay
    as they were, whatever messages the callback consumes. *)
Theorem list_users_never_refreshed (g : GlibT.t) (w : World) (steps : list Step) :
  bridge_ok g w ->
  exists ids g' w',
    run steps (g, w) = Some (ids, (g', w'))
    /\ GlibT.control_if g' = GlibT.control_if g
    /\ Control.ListUsers (GlibT.control_if g')
       = Control.ListUsers (GlibT.control_if g).
Proof.
  intros Hok.
  destruct (run_invariants steps g w Hok)
    as (ids & g' & w' & consumed & Hrun & _ & Hc & _).
  exists ids, g', w'. split; [exact Hrun|]. split; [exact Hc|]. now rewrite Hc.
Qed.

Lemma list_users_never_refreshed_witness :
  exists ids g' w',
    run [Tick; Invoke (CallExportKeys "alice" "/tmp/k.txt" "pw"); Tick]
      (Samples.bridge, Samples.world2 [UpdateUsersMessage; UpdateDevicesMessage])
    = Some (ids, (g', w'))
    /\ GlibT.control_if g' = Samples.control
    /\ Control.ListUsers (GlibT.control_if g') = [("alice", "ALICEDEV")].
Proof.
  apply (list_users_never_refreshed Samples.bridge
           (Samples.world2 [UpdateUsersMessage; UpdateDevicesMessage])).
  constructor; simpl; try reflexivity; eauto.
Defined.



(** From start-up on, the ids are 0, 1, 2, ...: the k-th call of a command
    method, on either surface, returns k - 1, with no gaps, whatever runs
    of the callback come in between. *)
Theorem ids_count_from_zero (data_dir : string) (w0 : World) (steps : list Step) :
  exists g w ids g' w',
    boot data_dir w0 = Some (g, w)
    /\ run steps (g, w) = Some (ids, (g', w'))
    /\ ids = seqZ 0 (Z.of_nat (count_invokes steps)).
Proof.
  destruct (boot_ok data_dir w0) as (g & w & Hboot & Hok & Hn & _).
  destruct (run_ids steps g w 0 Hok Hn)
    as (ids & g' & w' & Hrun & _ & _ & Hcount & Hids & _).
  exists g, w, ids, g', w'. split; [exact Hboot|]. split; [exact Hrun|].
  now rewrite <- Hcount.
Qed.




(** A device-list-changed message makes the listings follow the store: the
    run of the callback that consumes it replaces the cache, whatever it
    held, by the store's snapshot, and [List] and [ListUserDevices] then
    answer from that snapshot. *)
Theorem refresh_then_list (g : GlibT.t) (w : World) (q : Queue)
    (rest : list Message) :
  queues w !! GlibT.receive_queue g = Some q ->
  items q = UpdateDevicesMessage :: rest ->
  (length (items q) <= unfinished_tasks q)%nat ->
  exists g' w',
    GlibT.message_callback (g, w) = Some (true, (g', w'))
    /\ Devices.device_list (GlibT.device_if g') = Some (db_devices w)
    /\ (forall pan_user,
           Devices.List (GlibT.device_if g') pan_user
           = Some (devices_of (db_devices w) pan_user))
    /\ (forall pan_user user_id,
           Devices.ListUserDevices (GlibT.device_if g') pan_user user_id
           = Some (user_devices_of (db_devices w) pan_user user_id)).
Proof.
  intros Hq Hitems Hlen. rewrite Hitems in Hlen. simpl in Hlen.
  destruct (unfinished_tasks q) as [|k] eqn:Hk; [lia|].
  eexists _, _.
  split; [apply (message_callback_cons g w q _ rest k Hq Hitems Hk)|].
  split; [reflexivity|]. split.
  - intros pan_user. now apply list_spec.
  - intros pan_user user_id. now apply list_user_devices_spec.
Qed.

Lemma refresh_then_list_witness :
  exists g' w',
    GlibT.message_callback (Samples.bridge, Samples.world2 [UpdateDevicesMessage])
    = Some (true, (g', w'))
    /\ Devices.device_list (GlibT.device_if g') = Some Samples.cache2
    /\ (forall pan_user,
           Devices.List (GlibT.device_if g') pan_user
           = Some (devices_of Samples.cache2 pan_user))
    /\ (forall pan_user user_id,
           Devices.ListUserDevices (GlibT.device_if g') pan_user user_id
           = Some (user_devices_of Samples.cache2 pan_user user_id)).
Proof.
  apply (refresh_then_list Samples.bridge (Samples.world2 [UpdateDevicesMessage])
           {| items := [UpdateDevicesMessage]; unfinished_tasks := 1 |} []).
  - reflexivity.
  - reflexivity.
  - simpl. lia.
Defined.


End BridgeMoreProperties.
